(** * NEO-Explorer: near-Earth objects and their close approaches

    A shallow embedding of [models.py]: the classes [NearEarthObject]
    and [CloseApproach], their constructors, the linking method
    [assign_neo], the accessor [time_str], the renderings [__str__] and
    [__repr__], and [serialize]; and of the two loaders of [extract.py],
    on the records their readers yield.  The date helpers and the
    linking pass, whose code is not among the sources, follow the
    specification.

    Python objects live in a store and are named by their address, so
    that the aliasing between a close approach and its NEO (and the list
    of approaches the NEO holds) is the one of the program.  Methods are
    computations in a state-and-exception monad over that store.

    Python strings are modelled as [string], read as sequences of code
    points below 256; Python floats as the binary64 instance of
    [spec_float]. *)

From Stdlib Require Import ZArith NArith Ascii String Floats.SpecFloat.
From stdpp Require Import base tactics option list strings gmap.

Open Scope string_scope.
Open Scope list_scope.
Open Scope Z_scope.

(** ** Exceptions and Python values *)

(** The exceptions the modelled code can raise, with their message
    where the source builds one.  [ParseError] is the failure of the
    date helper, under the name the specification gives it;
    [InvalidAddress] is no Python exception: it marks an address
    outside the store, which a Python reference never is. *)
Inductive exn :=
| ValueError (msg : string)
| TypeError (msg : string)
| OverflowError (msg : string)
| AttributeError (msg : string)
| ParseError (msg : string)
| InvalidAddress (a : nat).

(** The values that flow through the constructors and [serialize]:
    [None], booleans, integers, floats, strings and dictionaries with
    string keys (insertion-ordered, as [dict] is). *)
#[warnings="-register-all"]
Inductive pyval :=
| PyNone
| PyBool (b : bool)
| PyInt (z : Z)
| PyFloat (f : spec_float)
| PyStr (s : string)
| PyDict (items : list (string * pyval)).

Definition is_ValueError (e : exn) : bool :=
  match e with ValueError _ => true | _ => false end.

(** ** Characters *)

Module Chars.

Definition code (c : ascii) : N := N_of_ascii c.

Definition is_digit (c : ascii) : bool :=
  (48 <=? code c)%N && (code c <=? 57)%N.

Definition digit_val (c : ascii) : N := (code c - 48)%N.

Definition of_digit (d : N) : ascii := ascii_of_N (48 + d).

(** ASCII lower-casing, used for the case-insensitive [inf] and [nan]. *)
Definition lower (c : ascii) : ascii :=
  if (65 <=? code c)%N && (code c <=? 90)%N
  then ascii_of_N (code c + 32) else c.

(** White space stripped by [float()]: the ASCII blanks, and the two
    code points below 256 that Unicode counts as spaces (0x85, 0xa0). *)
Definition is_space (c : ascii) : bool :=
  let n := code c in
  ((9 <=? n)%N && (n <=? 13)%N) || (n =? 32)%N || (n =? 133)%N || (n =? 160)%N.

End Chars.

(** ** Decimal numerals *)

Module Decimal.

(** Digits of a natural number, most significant first.  The fuel is
    the number of binary digits, which bounds the decimal ones. *)
Fixpoint digits_fuel (fuel : nat) (n : N) (acc : list ascii) : list ascii :=
  match fuel with
  | O => acc
  | S fuel' =>
      let acc' := Chars.of_digit (n mod 10) :: acc in
      if (n <? 10)%N then acc' else digits_fuel fuel' (n / 10) acc'
  end.

Definition digits (n : N) : list ascii :=
  digits_fuel (S (N.to_nat (N.log2 n))) n [].

Definition of_N (n : N) : string := string_of_list_ascii (digits n).

Definition of_Z (z : Z) : string :=
  match z with
  | Zneg p => "-" +:+ of_N (Npos p)
  | _ => of_N (Z.to_N z)
  end.

(** [pad w n]: [n] in decimal, zero-padded on the left to width [w]. *)
Definition pad (w : nat) (n : N) : string :=
  let ds := digits n in
  string_of_list_ascii (replicate (w - length ds) "0"%char ++ ds).

(** Value of a run of digits, most significant first. *)
Definition value (ds : list ascii) : N :=
  fold_left (fun acc c => (10 * acc + Chars.digit_val c)%N) ds 0%N.

End Decimal.

(** ** Python floats: binary64 *)

Module Float.

Definition prec : Z := 53.
Definition emax : Z := 1024.

(** [==] on floats: IEEE comparison, so a NaN differs from itself. *)
Definition eqb (x y : spec_float) : bool := SFeqb x y.

Definition is_zero (x : spec_float) : bool :=
  match x with S754_zero _ => true | _ => false end.

(** The float nearest to [d * 10^q] (ties to even), signed by [neg].
    One rounding only: the quotient by a power of ten is rounded from
    its exact remainder. *)
Definition of_decimal (neg : bool) (d : N) (q : Z) : spec_float :=
  match d with
  | N0 => S754_zero neg
  | Npos p =>
      if 0 <=? q
      then binary_round prec emax neg (Z.to_pos (Zpos p * 10 ^ q)) 0
      else SFdiv prec emax (S754_finite neg p 0)
             (S754_finite false (Z.to_pos (10 ^ (- q))) 0)
  end.

(** [float(n)] for an integer: nearest float, [None] when out of range
    ([OverflowError] in Python). *)
Definition of_Z (z : Z) : option spec_float :=
  match binary_normalize prec emax z 0 false with
  | S754_infinity _ => None
  | f => Some f
  end.

(** *** Reading a float: [float(s)] for a string *)

Fixpoint lstrip (l : list ascii) : list ascii :=
  match l with
  | c :: l' => if Chars.is_space c then lstrip l' else l
  | [] => []
  end.

Definition strip (l : list ascii) : list ascii :=
  rev (lstrip (rev (lstrip l))).

(** Underscores may only stand between two digits; they are dropped.
    [prev] is the character before [l]. *)
Fixpoint drop_underscores (prev : ascii) (l : list ascii) : option (list ascii) :=
  match l with
  | [] => if Ascii.eqb prev "_" then None else Some []
  | c :: l' =>
      if Ascii.eqb c "_"
      then if Chars.is_digit prev then drop_underscores c l' else None
      else if Ascii.eqb prev "_" && negb (Chars.is_digit c) then None
      else cons c <$> drop_underscores c l'
  end.

(** Splits the longest run of digits off the front. *)
Fixpoint span_digits (l : list ascii) : list ascii * list ascii :=
  match l with
  | c :: l' =>
      if Chars.is_digit c
      then let '(ds, r) := span_digits l' in (c :: ds, r)
      else ([], l)
  | [] => ([], [])
  end.

Definition split_sign (l : list ascii) : bool * list ascii :=
  match l with
  | "-"%char :: l' => (true, l')
  | "+"%char :: l' => (false, l')
  | _ => (false, l)
  end.

(** The exponent part: nothing, or [e]/[E], an optional sign and at
    least one digit, up to the end of the input. *)
Definition read_exponent (l : list ascii) : option Z :=
  match l with
  | [] => Some 0
  | c :: l' =>
      if Ascii.eqb (Chars.lower c) "e" then
        let '(neg, l'') := split_sign l' in
        match span_digits l'' with
        | ((_ :: _) as ds, []) =>
            let v := Z.of_N (Decimal.value ds) in
            Some (if neg : bool then - v else v)
        | _ => None
        end
      else None
  end.

(** A decimal literal: digits with an optional point (a digit on at
    least one side of it) and an optional exponent. *)
Definition read_number (neg : bool) (l : list ascii) : option spec_float :=
  let '(ip, r1) := span_digits l in
  let '(fp, r2) :=
    match r1 with
    | "."%char :: r => span_digits r
    | _ => ([], r1)
    end in
  match ip ++ fp with
  | [] => None
  | ds =>
      e ← read_exponent r2;
      Some (of_decimal neg (Decimal.value ds) (e - Z.of_nat (length fp)))
  end.

Definition read_special (neg : bool) (l : list ascii) : option spec_float :=
  let w := string_of_list_ascii (map Chars.lower l) in
  if String.eqb w "inf" || String.eqb w "infinity" then Some (S754_infinity neg)
  else if String.eqb w "nan" then Some S754_nan
  else None.

Definition of_string (s : string) : option spec_float :=
  l ← drop_underscores "000"%char (strip (list_ascii_of_string s));
  let '(neg, body) := split_sign l in
  match read_special neg body with
  | Some f => Some f
  | None => read_number neg body
  end.

(** *** Writing a float: [repr] and fixed-point formatting *)

(** The exact value of the positive float [m * 2^e] as a fraction. *)
Definition fraction (m : positive) (e : Z) : Z * Z :=
  if 0 <=? e then (Zpos m * 2 ^ e, 1) else (Zpos m, 2 ^ (- e)).

(** Least [j >= j0] with [num * 10^(j - j0) >= den]. *)
Fixpoint leading_zeros (fuel : nat) (num den j : Z) : Z :=
  match fuel with
  | O => j
  | S fuel' =>
      if den <=? num then j else leading_zeros fuel' (num * 10) den (j + 1)
  end.

(** The position [k] of the decimal point: [10^(k-1) <= m * 2^e < 10^k]. *)
Definition decimal_point (m : positive) (e : Z) : Z :=
  let '(num, den) := fraction m e in
  if den <=? num
  then Z.of_nat (length (Decimal.digits (Z.to_N (num / den))))
  else - leading_zeros (Z.to_nat (- e)) (num * 10) den 0.

(** Round to nearest, ties to even, from a quotient and its remainder. *)
Definition round_half_even (quo rem den : Z) : Z :=
  match 2 * rem ?= den with
  | Lt => quo
  | Gt => quo + 1
  | Eq => if Z.even quo then quo else quo + 1
  end.

(** The shortest decimal [d * 10^q] that reads back as [m * 2^e], the
    nearest one when several of that length do; [n] digits are tried,
    then [n + 1], up to 17, which always suffice. *)
Fixpoint shortest (fuel : nat) (n : Z) (m : positive) (e k : Z) : Z * Z :=
  let '(num, den) := fraction m e in
  let q := k - n in
  let '(num', den') :=
    if q <=? 0 then (num * 10 ^ (- q), den) else (num, den * 10 ^ q) in
  let lo := num' / den' in
  let nearest := round_half_even lo (num' mod den') den' in
  let reads_back d :=
    SFeqb (of_decimal false (Z.to_N d) q) (S754_finite false m e) in
  match fuel with
  | O => (nearest, q)
  | S fuel' =>
      match reads_back lo, reads_back (lo + 1) with
      | true, true => (nearest, q)
      | true, false => (lo, q)
      | false, true => (lo + 1, q)
      | false, false => shortest fuel' (n + 1) m e k
      end
  end.

(** Drops the trailing zeros of [d], counting them into the exponent. *)
Fixpoint drop_zeros (fuel : nat) (d q : Z) : Z * Z :=
  match fuel with
  | O => (d, q)
  | S fuel' =>
      if (d mod 10 =? 0) && negb (d =? 0)
      then drop_zeros fuel' (d / 10) (q + 1) else (d, q)
  end.

Definition zeros (n : Z) : list ascii := replicate (Z.to_nat n) "0"%char.

(** [repr] layout: scientific when the decimal point falls more than
    three places left of the digits or more than sixteen places in. *)
Definition layout (ds : list ascii) (decpt : Z) : list ascii :=
  let n := Z.of_nat (length ds) in
  if (decpt <? -3) || (16 <? decpt) then
    let ex := decpt - 1 in
    take 1 ds
      ++ match drop 1 ds with [] => [] | r => "."%char :: r end
      ++ "e"%char :: (if ex <? 0 then "-"%char else "+"%char)
      :: list_ascii_of_string (Decimal.pad 2 (Z.to_N (Z.abs ex)))
  else if decpt <=? 0 then
    "0"%char :: "."%char :: zeros (- decpt) ++ ds
  else if n <=? decpt then
    ds ++ zeros (decpt - n) ++ ["."%char; "0"%char]
  else
    take (Z.to_nat decpt) ds ++ "."%char :: drop (Z.to_nat decpt) ds.

Definition sign_prefix (neg : bool) : string := if neg then "-" else "".

(** [repr(x)], which is also [str(x)]. *)
Definition repr (x : spec_float) : string :=
  match x with
  | S754_nan => "nan"
  | S754_infinity neg => sign_prefix neg +:+ "inf"
  | S754_zero neg => sign_prefix neg +:+ "0.0"
  | S754_finite neg m e =>
      let k := decimal_point m e in
      let '(d, q) := shortest 16 1 m e k in
      let '(d', q') := drop_zeros 17 d q in
      let ds := Decimal.digits (Z.to_N d') in
      sign_prefix neg
        +:+ string_of_list_ascii (layout ds (Z.of_nat (length ds) + q'))
  end.

(** [format(x, '.pf')]: [p] digits after the point, the exact value
    rounded to nearest, ties to even. *)
Definition format_fixed (p : nat) (x : spec_float) : string :=
  let point (whole frac : list ascii) :=
    string_of_list_ascii
      (whole ++ match p with O => [] | _ => "."%char :: frac end) in
  match x with
  | S754_nan => "nan"
  | S754_infinity neg => sign_prefix neg +:+ "inf"
  | S754_zero neg =>
      sign_prefix neg +:+ point ["0"%char] (zeros (Z.of_nat p))
  | S754_finite neg m e =>
      let '(num, den) := fraction m e in
      let scale := 10 ^ Z.of_nat p in
      let r := round_half_even (num * scale / den) ((num * scale) mod den) den in
      sign_prefix neg
        +:+ point (Decimal.digits (Z.to_N (r / scale)))
              (list_ascii_of_string (Decimal.pad p (Z.to_N (r mod scale))))
  end.

End Float.

(** ** Python built-ins used by the models *)

Module Py.

Definition type_name (v : pyval) : string :=
  match v with
  | PyNone => "NoneType"
  | PyBool _ => "bool"
  | PyInt _ => "int"
  | PyFloat _ => "float"
  | PyStr _ => "str"
  | PyDict _ => "dict"
  end.

(** Truth value, as [bool(v)], [not v] and [if v] take it. *)
Definition truthy (v : pyval) : bool :=
  match v with
  | PyNone => false
  | PyBool b => b
  | PyInt z => negb (z =? 0)
  | PyFloat f => negb (Float.is_zero f)
  | PyStr s => negb (String.eqb s "")
  | PyDict items => match items with [] => false | _ => true end
  end.

(** [v == s] for a string [s]: only an equal string compares equal. *)
Definition eq_str (v : pyval) (s : string) : bool :=
  match v with
  | PyStr s' => String.eqb s' s
  | _ => false
  end.

Definition hex_digit (n : N) : ascii :=
  if (n <? 10)%N then ascii_of_N (48 + n) else ascii_of_N (87 + n).

Definition printable (c : ascii) : bool :=
  let n := Chars.code c in
  ((32 <=? n)%N && (n <=? 126)%N) || ((161 <=? n)%N && negb (n =? 173)%N).

(** One character of [repr(s)], inside quotes [q]. *)
Definition escape (q c : ascii) : list ascii :=
  let n := Chars.code c in
  if Ascii.eqb c q || Ascii.eqb c "\"%char then ["\"%char; c]
  else if (n =? 9)%N then ["\"%char; "t"%char]
  else if (n =? 10)%N then ["\"%char; "n"%char]
  else if (n =? 13)%N then ["\"%char; "r"%char]
  else if printable c then [c]
  else ["\"%char; "x"%char; hex_digit (n / 16); hex_digit (n mod 16)].

Definition apostrophe : ascii := "'"%char.
Definition double_quote : ascii := ascii_of_N 34.

(** [repr(s)]: single quotes, unless [s] has an apostrophe and no
    double quote. *)
Definition repr_str (s : string) : string :=
  let l := list_ascii_of_string s in
  let has c := existsb (Ascii.eqb c) l in
  let q := if has apostrophe && negb (has double_quote)
           then double_quote else apostrophe in
  string_of_list_ascii (q :: flat_map (escape q) l ++ [q]).

Fixpoint repr (v : pyval) : string :=
  match v with
  | PyNone => "None"
  | PyBool b => if b then "True" else "False"
  | PyInt z => Decimal.of_Z z
  | PyFloat f => Float.repr f
  | PyStr s => repr_str s
  | PyDict items =>
      let fix entries (l : list (string * pyval)) : string :=
        match l with
        | [] => ""
        | (k, x) :: l' =>
            repr_str k +:+ ": " +:+ repr x
              +:+ match l' with [] => "" | _ => ", " +:+ entries l' end
        end in
      "{" +:+ entries items +:+ "}"
  end.

(** [str(v)]: the string itself, and [repr] for the other values. *)
Definition str (v : pyval) : string :=
  match v with
  | PyStr s => s
  | _ => repr v
  end.

(** [float(v)]. *)
Definition float (v : pyval) : exn + spec_float :=
  match v with
  | PyFloat f => inr f
  | PyBool b => inr (if b then Float.of_decimal false 1 0 else S754_zero false)
  | PyInt z =>
      match Float.of_Z z with
      | Some f => inr f
      | None => inl (OverflowError "int too large to convert to float")
      end
  | PyStr s =>
      match Float.of_string s with
      | Some f => inr f
      | None =>
          inl (ValueError ("could not convert string to float: " +:+ repr_str s))
      end
  | _ =>
      inl (TypeError
             ("float() argument must be a string or a real number, not '"
                +:+ type_name v +:+ "'"))
  end.

End Py.

(** ** The date helpers ([helpers.py]) *)

Module helpers.

(** Modelled from the spec: the internal timestamp that [helpers.py]
    (not among the sources) builds, a calendar date and time of day. *)
Record datetime := mk_datetime {
  year : N; month : N; day : N; hour : N; minute : N; second : N
}.

Definition is_leap (y : N) : bool :=
  ((y mod 4 =? 0) && negb (y mod 100 =? 0) || (y mod 400 =? 0))%N.

Definition days_in_month (y m : N) : N :=
  (if m =? 2 then (if is_leap y then 29 else 28)
   else if (m =? 4) || (m =? 6) || (m =? 9) || (m =? 11) then 30
   else 31)%N.

(** A date of the calendar, at a time of the day. *)
Definition valid_datetime (t : datetime) : bool :=
  ((1 <=? year t) && (year t <=? 9999)
   && (1 <=? month t) && (month t <=? 12)
   && (1 <=? day t) && (day t <=? days_in_month (year t) (month t))
   && (hour t <=? 23) && (minute t <=? 59) && (second t <=? 59))%N.

(** Modelled from the spec: [cd_to_datetime] of [helpers.py], which is
    not among the sources.  The input has the fixed format
    [YYYY-MM-DD HH:MM]; anything else is a [ParseError].  (The docstring
    of [CloseApproach.__init__] describes its date argument as
    ['YYYY-bb-DD hh:mm']; the model follows the specification.) *)
Definition cd_to_datetime (cd : pyval) : exn + datetime :=
  let malformed := ParseError ("malformed date-time: " +:+ Py.repr cd) in
  match cd with
  | PyStr s =>
      match list_ascii_of_string s with
      | [y1; y2; y3; y4; s1; m1; m2; s2; d1; d2; s3; h1; h2; s4; n1; n2] =>
          let t := {| year := Decimal.value [y1; y2; y3; y4];
                      month := Decimal.value [m1; m2];
                      day := Decimal.value [d1; d2];
                      hour := Decimal.value [h1; h2];
                      minute := Decimal.value [n1; n2];
                      second := 0 |} in
          if forallb Chars.is_digit [y1; y2; y3; y4; m1; m2; d1; d2; h1; h2; n1; n2]
             && Ascii.eqb s1 "-" && Ascii.eqb s2 "-"
             && Ascii.eqb s3 " " && Ascii.eqb s4 ":"
             && valid_datetime t
          then inr t else inl malformed
      | _ => inl malformed
      end
  | _ => inl malformed
  end.

(** Modelled from the spec: [datetime_to_str] of [helpers.py], which is
    not among the sources.  The timestamp is rendered as
    [YYYY-MM-DD HH:MM]; the seconds are dropped. *)
Definition datetime_to_str (t : datetime) : string :=
  Decimal.pad 4 (year t) +:+ "-" +:+ Decimal.pad 2 (month t) +:+ "-"
    +:+ Decimal.pad 2 (day t) +:+ " "
    +:+ Decimal.pad 2 (hour t) +:+ ":" +:+ Decimal.pad 2 (minute t).

End helpers.

(** ** Objects and the store *)

Abbreviation addr := nat (only parsing).

(** The attributes [NearEarthObject.__init__] sets.  [approaches] holds
    the addresses of close approaches. *)
Record NearEarthObject := mk_neo {
  designation : string;
  name : option string;
  diameter : spec_float;
  hazardous : bool;
  approaches : list addr;
  extra_information : list (string * pyval)
}.

(** The attributes [CloseApproach.__init__] sets.  [neo] is [None] or
    the address of a near-Earth object; [approach_extra_information] is
    the attribute [extra_information] of the class. *)
Record CloseApproach := mk_approach {
  _designation : string;
  time : helpers.datetime;
  distance : spec_float;
  velocity : spec_float;
  neo : option addr;
  approach_extra_information : list (string * pyval)
}.

Record store := mk_store {
  neo_objects : list NearEarthObject;
  approach_objects : list CloseApproach
}.

Definition empty_store : store := mk_store [] [].

Definition set_neo (x : option addr) (c : CloseApproach) : CloseApproach :=
  mk_approach (_designation c) (time c) (distance c) (velocity c) x
    (approach_extra_information c).

Definition set_approaches (l : list addr) (o : NearEarthObject) : NearEarthObject :=
  mk_neo (designation o) (name o) (diameter o) (hazardous o) l
    (extra_information o).

(** ** Computations over the store *)

(** A method call: from a store to a result or an exception, and the
    store it leaves. *)
Definition M (A : Type) : Type := store -> (exn + A) * store.

#[global] Instance M_ret : MRet M := fun A x σ => (inr x, σ).

#[global] Instance M_bind : MBind M := fun A B f m σ =>
  match m σ with
  | (inr x, σ') => f x σ'
  | (inl e, σ') => (inl e, σ')
  end.

Definition raise {A} (e : exn) : M A := fun σ => (inl e, σ).

Definition lift {A} (r : exn + A) : M A := fun σ => (r, σ).

Definition load_neo (a : addr) : M NearEarthObject := fun σ =>
  match neo_objects σ !! a with
  | Some o => (inr o, σ)
  | None => (inl (InvalidAddress a), σ)
  end.

Definition load_approach (a : addr) : M CloseApproach := fun σ =>
  match approach_objects σ !! a with
  | Some c => (inr c, σ)
  | None => (inl (InvalidAddress a), σ)
  end.

Definition modify (f : store -> store) : M unit := fun σ => (inr (), f σ).

Definition store_neo (a : addr) (o : NearEarthObject) (σ : store) : store :=
  mk_store (<[a := o]> (neo_objects σ)) (approach_objects σ).

Definition store_approach (a : addr) (c : CloseApproach) (σ : store) : store :=
  mk_store (neo_objects σ) (<[a := c]> (approach_objects σ)).

Definition update_neo (a : addr) (f : NearEarthObject -> NearEarthObject) : M unit :=
  o ← load_neo a; modify (store_neo a (f o)).

Definition update_approach (a : addr) (f : CloseApproach -> CloseApproach) : M unit :=
  c ← load_approach a; modify (store_approach a (f c)).

Definition new_neo (o : NearEarthObject) : M addr := fun σ =>
  (inr (length (neo_objects σ)),
   mk_store (neo_objects σ ++ [o]) (approach_objects σ)).

Definition new_approach (c : CloseApproach) : M addr := fun σ =>
  (inr (length (approach_objects σ)),
   mk_store (neo_objects σ) (approach_objects σ ++ [c])).

(** [self.neo.x]: the object [self.neo] refers to; reading an attribute
    of [None] is an [AttributeError]. *)
Definition load_neo_of (c : CloseApproach) (attribute : string) : M NearEarthObject :=
  match neo c with
  | Some b => load_neo b
  | None =>
      raise (AttributeError
               ("'NoneType' object has no attribute '" +:+ attribute +:+ "'"))
  end.

(** ** [class NearEarthObject] *)

(** An optional string attribute as a Python value. *)
Definition optional_str (x : option string) : pyval :=
  match x with Some s => PyStr s | None => PyNone end.

(** [NearEarthObject(pdes, name='', diameter='', pha='N', **extra)].
    An argument that is not passed is [None] here and takes its
    default.  The result is the address of the new object. *)
Definition NearEarthObject_init (pdes : pyval) (name diameter pha : option pyval)
    (extra : list (string * pyval)) : M addr :=
  let name := default (PyStr "") name in
  let diameter := default (PyStr "") diameter in
  let pha := default (PyStr "N") pha in
  (* self.designation = str(pdes) *)
  let self_designation := Py.str pdes in
  (* self.name = str(name) or None *)
  let self_name :=
    if Py.truthy (PyStr (Py.str name)) then Some (Py.str name) else None in
  (* if not diameter: diameter = 'nan' *)
  let diameter := if negb (Py.truthy diameter) then PyStr "nan" else diameter in
  (* self.diameter = float(diameter) *)
  self_diameter ← lift (Py.float diameter);
  (* if pha == 'N': pha = '' *)
  let pha := if Py.eq_str pha "N" then PyStr "" else pha in
  (* self.hazardous = bool(pha) *)
  let self_hazardous := Py.truthy pha in
  (* self.approaches = []; self.extra_information = extra *)
  new_neo (mk_neo self_designation self_name self_diameter self_hazardous [] extra).

(** The property [fullname], on the attributes of the object. *)
Definition fullname_of (o : NearEarthObject) : string :=
  let fullname := designation o in
  if Py.truthy (optional_str (name o))
  then fullname +:+ " (" +:+ Py.str (optional_str (name o)) +:+ ")"
  else fullname.

Definition fullname (self : addr) : M string :=
  o ← load_neo self; mret (fullname_of o).

Definition NearEarthObject_str (self : addr) : M string :=
  o ← load_neo self;
  full ← fullname self;
  let string := "NEO " +:+ Py.repr_str full in
  let string :=
    if Float.eqb (diameter o) (diameter o)
    then string +:+ " has a diameter of "
           +:+ Float.format_fixed 3 (diameter o) +:+ " km and"
    else string in
  mret (if hazardous o
        then string +:+ " is potentially hazardous."
        else string +:+ " is not potentially hazardous.").

Definition NearEarthObject_repr (self : addr) : M string :=
  o ← load_neo self;
  mret ("NearEarthObject(designation=" +:+ Py.repr_str (designation o)
          +:+ ", name=" +:+ Py.repr (optional_str (name o))
          +:+ ", diameter=" +:+ Float.format_fixed 3 (diameter o)
          +:+ ", hazardous=" +:+ Py.repr (PyBool (hazardous o)) +:+ ")").

(** ** [class CloseApproach] *)

(** [CloseApproach(des, cd, dist, v_rel, **extra)]. *)
Definition CloseApproach_init (des cd dist v_rel : pyval)
    (extra : list (string * pyval)) : M addr :=
  let self_designation := Py.str des in
  self_time ← lift (helpers.cd_to_datetime cd);
  self_distance ← lift (Py.float dist);
  self_velocity ← lift (Py.float v_rel);
  new_approach
    (mk_approach self_designation self_time self_distance self_velocity None extra).

(** The property [time_str]. *)
Definition time_str (self : addr) : M string :=
  c ← load_approach self; mret (helpers.datetime_to_str (time c)).

Definition CloseApproach_str (self : addr) : M string :=
  c ← load_approach self;
  t ← time_str self;
  let string := "At " +:+ t +:+ "," in
  who ←
    match neo c with
    | Some b => full ← fullname b; mret (Py.repr_str full)
    | None => mret (Py.repr_str (_designation c))
    end;
  let string := string +:+ " " +:+ who +:+ " approaches Earth " in
  mret (string +:+ "at a distance of " +:+ Float.format_fixed 2 (distance c)
          +:+ " au and a velocity of " +:+ Float.format_fixed 2 (velocity c)
          +:+ " km/s.").

Definition CloseApproach_repr (self : addr) : M string :=
  c ← load_approach self;
  t ← time_str self;
  who ←
    match neo c with
    | Some b => NearEarthObject_repr b
    | None => mret (Py.repr PyNone)
    end;
  mret ("CloseApproach(time=" +:+ Py.repr_str t
          +:+ ", distance=" +:+ Float.format_fixed 2 (distance c)
          +:+ ", velocity=" +:+ Float.format_fixed 2 (velocity c)
          +:+ ", neo=" +:+ who +:+ ")").

(** [assign_neo(self, neos)], with [neos] a dictionary from primary
    designations to near-Earth objects. *)
Definition assign_neo (self : addr) (neos : gmap string addr) : M addr :=
  c ← load_approach self;
  match neos !! _designation c with
  | Some b =>
      (* self.neo = neos[self._designation] *)
      update_approach self (set_neo (Some b));;
      (* self.neo.approaches.append(self) *)
      c' ← load_approach self;
      match neo c' with
      | Some b' => update_neo b' (fun o => set_approaches (approaches o ++ [self]) o)
      | None => raise (AttributeError "'NoneType' object has no attribute 'approaches'")
      end
  | None =>
      (* self.neo = None *)
      update_approach self (set_neo None)
  end;;
  mret self.

(** *** [serialize] *)

(** [d[k] = v] on an insertion-ordered dictionary. *)
Fixpoint dict_set (k : string) (v : pyval) (d : list (string * pyval))
    : list (string * pyval) :=
  match d with
  | [] => [(k, v)]
  | (k', v') :: d' =>
      if String.eqb k' k then (k', v) :: d' else (k', v') :: dict_set k v d'
  end.

(** [dict(pairs)]. *)
Definition dict (pairs : list (string * pyval)) : list (string * pyval) :=
  fold_left (fun d kv => dict_set kv.1 kv.2 d) pairs [].

(** [zip(xs, ys)], which stops with the shorter of the two. *)
Definition zip {A B} (xs : list A) (ys : list B) : list (A * B) := combine xs ys.

Definition fieldnames : list string :=
  ["datetime_utc"; "distance_au"; "velocity_km_s"; "designation";
   "name"; "diameter_km"; "potentially_hazardous"].

Definition serialize (self : addr) (extension : pyval) : M pyval :=
  c ← load_approach self;
  (* name = self.neo.name; if name is None: name = '' *)
  o ← load_neo_of c "name";
  let name :=
    match optional_str (name o) with PyNone => PyStr "" | n => n end in
  t ← time_str self;
  let attributes :=
    [PyStr t; PyFloat (distance c); PyFloat (velocity c);
     PyStr (designation o); name; PyFloat (diameter o); PyBool (hazardous o)] in
  if Py.eq_str extension "csv" then
    let attributes := map (fun attr => PyStr (Py.str attr)) attributes in
    mret (PyDict (dict (zip fieldnames attributes)))
  else if Py.eq_str extension "json" then
    let out := dict (zip (take 3 fieldnames) (take 3 attributes)) in
    let out :=
      dict_set "neo" (PyDict (dict (zip (drop 3 fieldnames) (drop 3 attributes)))) out in
    mret (PyDict out)
  else if negb (Py.eq_str extension "csv" || Py.eq_str extension "json") then
    raise (ValueError ("extension must be 'csv' or 'json' (given extension="
                         +:+ Py.repr extension +:+ ")."))
  else mret PyNone.

(** ** The linking pass *)

(** [for x in l: f(x)]. *)
Fixpoint for_each {A B} (f : A -> M B) (l : list A) : M unit :=
  match l with
  | [] => mret ()
  | x :: l' => f x;; for_each f l'
  end.

(** Modelled from the spec: the designation-keyed map of the bodies,
    built by code that is not among the sources (the database that
    owns both collections), in one pass over the bodies. *)
Fixpoint index_by_designation (bodies : list addr) (neos : gmap string addr)
    : M (gmap string addr) :=
  match bodies with
  | [] => mret neos
  | b :: bodies' =>
      o ← load_neo b;
      index_by_designation bodies' (<[designation o := b]> neos)
  end.

(** Modelled from the spec: the linking pass, by code that is not among
    the sources.  It builds the map, then calls [assign_neo] once for
    each event, in the order the events are given. *)
Definition link (bodies events : list addr) : M unit :=
  neos ← index_by_designation bodies ∅;
  for_each (fun e => assign_neo e neos) events.

(** ** Calls with keyword arguments, and [extract.py] *)

(** [d.get(k)]. *)
Definition dict_get (k : string) (d : list (string * pyval)) : option pyval :=
  snd <$> List.find (fun kv => String.eqb kv.1 k) d.

(** The entries of [d] whose key is not among [ks]: what [**extra]
    receives. *)
Definition dict_without (ks : list string) (d : list (string * pyval))
    : list (string * pyval) :=
  List.filter (fun kv => negb (existsb (String.eqb kv.1) ks)) d.

(** ['a'], ['a' and 'b'], ['a', 'b', and 'c']. *)
Fixpoint enumerate_many (names : list string) : string :=
  match names with
  | [] => ""
  | [a] => "and " +:+ Py.repr_str a
  | a :: l => Py.repr_str a +:+ ", " +:+ enumerate_many l
  end.

Definition enumerate (names : list string) : string :=
  match names with
  | [a] => Py.repr_str a
  | [a; b] => Py.repr_str a +:+ " and " +:+ Py.repr_str b
  | _ => enumerate_many names
  end.

(** The [TypeError] of a call that lacks required arguments. *)
Definition missing_arguments (callee : string) (names : list string) : exn :=
  TypeError
    (callee +:+ "() missing " +:+ Decimal.of_N (N.of_nat (length names))
       +:+ " required positional argument"
       +:+ (if (length names =? 1)%nat then "" else "s")
       +:+ ": " +:+ enumerate names).

(** [NearEarthObject] called with the keyword arguments [kwargs]. *)
Definition NearEarthObject_call (kwargs : list (string * pyval)) : M addr :=
  match dict_get "pdes" kwargs with
  | Some pdes =>
      NearEarthObject_init pdes (dict_get "name" kwargs)
        (dict_get "diameter" kwargs) (dict_get "pha" kwargs)
        (dict_without ["pdes"; "name"; "diameter"; "pha"] kwargs)
  | None => raise (missing_arguments "NearEarthObject.__init__" ["pdes"])
  end.

(** [CloseApproach] called with the keyword arguments [kwargs]. *)
Definition CloseApproach_call (kwargs : list (string * pyval)) : M addr :=
  let required := ["des"; "cd"; "dist"; "v_rel"] in
  match dict_get "des" kwargs, dict_get "cd" kwargs,
        dict_get "dist" kwargs, dict_get "v_rel" kwargs with
  | Some des, Some cd, Some dist, Some v_rel =>
      CloseApproach_init des cd dist v_rel (dict_without required kwargs)
  | _, _, _, _ =>
      raise (missing_arguments "CloseApproach.__init__"
               (List.filter (fun k => negb (bool_decide (is_Some (dict_get k kwargs))))
                  required))
  end.

(** [[f(x) for x in l]]. *)
Fixpoint for_list {A B} (f : A -> M B) (l : list A) : M (list B) :=
  match l with
  | [] => mret []
  | x :: l' => y ← f x; ys ← for_list f l'; mret (y :: ys)
  end.

(** [load_neos], on the rows the CSV reader yields. *)
Definition load_neos (rows : list (list (string * pyval))) : M (list addr) :=
  for_list NearEarthObject_call rows.

(** [load_approaches], on the [fields] and the [data] of the JSON file. *)
Definition load_approaches (fields : list string) (data : list (list pyval))
    : M (list addr) :=
  for_list (fun row => CloseApproach_call (dict (zip fields row))) data.

(** ** Vocabulary of the properties *)

(** The attributes the constructor computes, apart from the diameter. *)
Definition name_of_input (v : pyval) : option string :=
  if String.eqb (Py.str v) "" then None else Some (Py.str v).

Definition diameter_input (diameter : option pyval) : pyval :=
  let d := default (PyStr "") diameter in
  if Py.truthy d then d else PyStr "nan".

Definition hazardous_of_input (v : pyval) : bool :=
  negb (Py.eq_str v "N") && Py.truthy v.

(** A date-time string of minute precision in the format
    [YYYY-MM-DD HH:MM]: the zero-padded fields of a date of the calendar
    and a time of the day. *)
Definition valid_cd (s : string) : Prop :=
  exists y m d h n : N,
    helpers.valid_datetime (helpers.mk_datetime y m d h n 0) = true
    /\ s = Decimal.pad 4 y +:+ "-" +:+ Decimal.pad 2 m +:+ "-"
            +:+ Decimal.pad 2 d +:+ " "
            +:+ Decimal.pad 2 h +:+ ":" +:+ Decimal.pad 2 n.

(** Checkers for the two directions of reading and writing a zero-padded
    field of width 2 or 4, run over all its values. *)
Definition digit_chars : list ascii := map Chars.of_digit [0; 1; 2; 3; 4; 5; 6; 7; 8; 9]%N.

Definition string2 (a b : ascii) : string := String a (String b "").
Definition string4 (a b c d : ascii) : string := String a (String b (string2 c d)).

Definition pad2_reads_back (n : N) : bool :=
  match list_ascii_of_string (Decimal.pad 2 n) with
  | [a; b] => forallb Chars.is_digit [a; b] && (Decimal.value [a; b] =? n)%N
  | _ => false
  end.

Definition pad4_reads_back (n : N) : bool :=
  match list_ascii_of_string (Decimal.pad 4 n) with
  | [a; b; c; d] =>
      forallb Chars.is_digit [a; b; c; d] && (Decimal.value [a; b; c; d] =? n)%N
  | _ => false
  end.

Definition value2_writes_back (a b : ascii) : bool :=
  String.eqb (Decimal.pad 2 (Decimal.value [a; b])) (string2 a b).

Definition value4_writes_back (a b c d : ascii) : bool :=
  String.eqb (Decimal.pad 4 (Decimal.value [a; b; c; d])) (string4 a b c d).

Definition below (k : N) : list N := map N.of_nat (seq 0 (N.to_nat k)).

(** A linked close approach: the event at [e] is [c], and its [neo] is
    the address of the near-Earth object [o]. *)
Definition linked (σ : store) (e : addr) (c : CloseApproach) (o : NearEarthObject)
    : Prop :=
  approach_objects σ !! e = Some c
  /\ exists b, neo c = Some b /\ neo_objects σ !! b = Some o.

(** The seven attributes [serialize] collects. *)
Definition attributes_of (c : CloseApproach) (o : NearEarthObject) : list pyval :=
  [PyStr (helpers.datetime_to_str (time c)); PyFloat (distance c);
   PyFloat (velocity c); PyStr (designation o); PyStr (default "" (name o));
   PyFloat (diameter o); PyBool (hazardous o)].

(** The outcome of [serialize] on a linked close approach. *)
Definition serialized (c : CloseApproach) (o : NearEarthObject) (extension : pyval)
    : exn + pyval :=
  if Py.eq_str extension "csv" then
    inr (PyDict (zip fieldnames (map (fun v => PyStr (Py.str v)) (attributes_of c o))))
  else if Py.eq_str extension "json" then
    inr (PyDict (zip (take 3 fieldnames) (take 3 (attributes_of c o))
                   ++ [("neo", PyDict (zip (drop 3 fieldnames)
                                         (drop 3 (attributes_of c o))))]))
  else
    inl (ValueError ("extension must be 'csv' or 'json' (given extension="
                       +:+ Py.repr extension +:+ ")."))%string.

(** The first scenario of the specification: Eros and its approach of
    1900, linked. *)
Definition eros : NearEarthObject :=
  mk_neo "433" (Some "Eros") (Float.of_decimal false 1684 (-2)) false [0%nat] [].

Definition eros_approach : CloseApproach :=
  mk_approach "433" (helpers.mk_datetime 1900 12 27 1 30 0)
    (Float.of_decimal false 92 (-4)) (Float.of_decimal false 558 (-2))
    (Some 0%nat) [].

Definition eros_store : store := mk_store [eros] [eros_approach].

(** The program that builds it. *)
Definition eros_program : M unit :=
  b ← NearEarthObject_init (PyStr "433") (Some (PyStr "Eros"))
        (Some (PyStr "16.84")) (Some (PyStr "N")) [];
  e ← CloseApproach_init (PyStr "433") (PyStr "1900-12-27 01:30")
        (PyStr "0.0092") (PyStr "5.58") [];
  link [b] [e].

(** The operations of the program on the objects of a store: the two
    constructors, the linking method and pass, serialization and the
    string renderings. *)
Inductive operation :=
| New_NearEarthObject (pdes : pyval) (name diameter pha : option pyval)
    (extra : list (string * pyval))
| New_CloseApproach (des cd dist v_rel : pyval) (extra : list (string * pyval))
| Call_assign_neo (e : addr) (neos : gmap string addr)
| Call_link (bodies events : list addr)
| Call_serialize (e : addr) (extension : pyval)
| Call_time_str (e : addr)
| Call_fullname (b : addr)
| Str_NearEarthObject (b : addr)
| Repr_NearEarthObject (b : addr)
| Str_CloseApproach (e : addr)
| Repr_CloseApproach (e : addr).

(** The store an operation leaves, whether it returns or raises. *)
Definition perform (op : operation) (σ : store) : store :=
  match op with
  | New_NearEarthObject pdes name diameter pha extra =>
      (NearEarthObject_init pdes name diameter pha extra σ).2
  | New_CloseApproach des cd dist v_rel extra =>
      (CloseApproach_init des cd dist v_rel extra σ).2
  | Call_assign_neo e neos => (assign_neo e neos σ).2
  | Call_link bodies events => (link bodies events σ).2
  | Call_serialize e extension => (serialize e extension σ).2
  | Call_time_str e => (time_str e σ).2
  | Call_fullname b => (fullname b σ).2
  | Str_NearEarthObject b => (NearEarthObject_str b σ).2
  | Repr_NearEarthObject b => (NearEarthObject_repr b σ).2
  | Str_CloseApproach e => (CloseApproach_str e σ).2
  | Repr_CloseApproach e => (CloseApproach_repr e σ).2
  end.

Definition perform_all (ops : list operation) (σ : store) : store :=
  fold_left (fun σ op => perform op σ) ops σ.

(** The designation of the near-Earth object at an address, if any. *)
Definition designation_at (σ : store) (a : addr) : option string :=
  designation <$> neo_objects σ !! a.

(** A computation that keeps the designation of every object there is. *)
Definition keeps_designations {A} (m : M A) : Prop :=
  forall σ a d, designation_at σ a = Some d -> designation_at (m σ).2 a = Some d.

(** The designation a close approach refers to. *)
Definition event_designation (σ : store) (e : addr) : option string :=
  _designation <$> approach_objects σ !! e.

(** A designation-keyed body map: every entry leads to a near-Earth
    object of the store that has the key as its designation. *)
Definition keyed (σ : store) (neos : gmap string addr) : Prop :=
  forall d b, neos !! d = Some b ->
    exists o, neo_objects σ !! b = Some o /\ designation o = d.

(** The body an event is linked to by [assign_neo]. *)
Definition target (neos : gmap string addr) (σ : store) (e : addr) : option addr :=
  event_designation σ e ≫= (neos !!.).

(** The designation-keyed map of a collection of bodies: under each
    designation, the body of the collection that has it.  There is one
    only if the designations of the bodies are distinct. *)
Definition designation_keyed (σ : store) (bodies : list addr)
    (neos : gmap string addr) : Prop :=
  forall d b, neos !! d = Some b <-> b ∈ bodies /\ designation_at σ b = Some d.

(** Bodies with distinct designations. *)
Definition distinct_designations (σ : store) (bodies : list addr) : Prop :=
  forall b1 b2 d, b1 ∈ bodies -> b2 ∈ bodies ->
    designation_at σ b1 = Some d -> designation_at σ b2 = Some d -> b1 = b2.

(** The number of times [e] stands in a list of addresses. *)
Definition occurrences (e : addr) (l : list addr) : nat :=
  count_occ Nat.eq_dec l e.

(** What the linking pass establishes, from the store [σ] before it to
    the store [σ'] after it.  An event whose designation is the one of a
    body refers to that body, stands exactly once in its approaches,
    which are the events of that designation in the order they were
    given, and stands in the approaches of no other body.  An event
    whose designation no body has refers to [None] and stands in the
    approaches of no body. *)
Definition linking_outcome (σ : store) (bodies events : list addr) (σ' : store)
    : Prop :=
  forall e c, e ∈ events -> approach_objects σ !! e = Some c ->
    (forall b o, b ∈ bodies -> neo_objects σ !! b = Some o ->
       designation o = _designation c ->
       approach_objects σ' !! e = Some (set_neo (Some b) c)
       /\ (exists o',
             neo_objects σ' !! b = Some o'
             /\ occurrences e (approaches o') = 1%nat
             /\ approaches o' =
                  filter (fun e' => event_designation σ e' = Some (designation o))
                    events)
       /\ (forall b' o', b' ∈ bodies -> b' <> b ->
             neo_objects σ' !! b' = Some o' -> e ∉ approaches o'))
    /\ ((forall b o, b ∈ bodies -> neo_objects σ !! b = Some o ->
           designation o <> _designation c) ->
        approach_objects σ' !! e = Some (set_neo None c)
        /\ (forall b o', b ∈ bodies ->
              neo_objects σ' !! b = Some o' -> e ∉ approaches o')).

(** Two bodies as constructed and three events, the second of an
    unknown object, before linking. *)
Definition unlinked_store : store :=
  mk_store
    [set_approaches [] eros; mk_neo "2015 AB" None S754_nan true [] []]
    [set_neo None eros_approach;
     mk_approach "unknown-object" (helpers.mk_datetime 2000 2 29 23 59 0)
       (S754_zero false) (Float.of_decimal false 3 0) None [];
     mk_approach "433" (helpers.mk_datetime 1931 1 30 4 7 0)
       (Float.of_decimal false 174 (-3)) (Float.of_decimal false 59 (-1)) None []].

(** A computation that leaves the store as it finds it, whether it
    returns or raises. *)
Definition reads_only {A} (m : M A) : Prop := forall σ, (m σ).2 = σ.

(** A computation that creates and removes no object. *)
Definition keeps_sizes {A} (m : M A) : Prop :=
  forall σ,
    length (neo_objects (m σ).2) = length (neo_objects σ)
    /\ length (approach_objects (m σ).2) = length (approach_objects σ).

(** Every close approach that refers to a near-Earth object stands in
    the approaches of that object. *)
Definition forward_refs (σ : store) : Prop :=
  forall e c b, approach_objects σ !! e = Some c -> neo c = Some b ->
    exists o, neo_objects σ !! b = Some o /\ e ∈ approaches o.

(** Every close approach in the approaches of a near-Earth object
    refers to that object. *)
Definition back_refs (σ : store) : Prop :=
  forall b o e, neo_objects σ !! b = Some o -> e ∈ approaches o ->
    exists c, approach_objects σ !! e = Some c /\ neo c = Some b.

(** A close approach that stands in the approaches of no object. *)
Definition unlisted (σ : store) (e : addr) : Prop :=
  forall b o, neo_objects σ !! b = Some o -> e ∉ approaches o.

(** The text [CloseApproach.__str__] ends with. *)
Definition approach_tail (c : CloseApproach) : string :=
  " approaches Earth at a distance of " +:+ Float.format_fixed 2 (distance c)
    +:+ " au and a velocity of " +:+ Float.format_fixed 2 (velocity c)
    +:+ " km/s.".

(** The keys of a dictionary, in order. *)
Definition keys (d : list (string * pyval)) : list string := map fst d.

(** Two rows of the catalogue, the second without a name and with a
    field of its own. *)
Definition catalogue_rows : list (list (string * pyval)) :=
  [[("pdes", PyStr "433"); ("name", PyStr "Eros"); ("diameter", PyStr "16.84");
    ("pha", PyStr "N")];
   [("pdes", PyStr "2015 AB"); ("name", PyStr ""); ("diameter", PyStr "");
    ("pha", PyStr "Y"); ("class", PyStr "APO")]].

(** The [fields] of the close-approach file, and two rows of [data],
    the second cut short after the distance. *)
Definition approach_fields : list string :=
  ["des"; "orbit_id"; "cd"; "dist"; "v_rel"].

Definition full_row : list pyval :=
  [PyStr "433"; PyStr "659"; PyStr "1900-12-27 01:30"; PyStr "0.0092"; PyStr "5.58"].


(** * Properties *)

(** ** Running computations *)

Lemma bind_inr {A B} (m : M A) (f : A -> M B) σ x σ' :
  m σ = (inr x, σ') -> (m ≫= f) σ = f x σ'.
Proof. intros H. unfold mbind, M_bind. by rewrite H. Qed.

Lemma load_neo_Some a o σ :
  neo_objects σ !! a = Some o -> load_neo a σ = (inr o, σ).
Proof. intros H. unfold load_neo. by rewrite H. Qed.

Lemma load_approach_Some a c σ :
  approach_objects σ !! a = Some c -> load_approach a σ = (inr c, σ).
Proof. intros H. unfold load_approach. by rewrite H. Qed.

(** ** Construction of a near-Earth object *)

(** What a call of the constructor does: it fails as [float] fails on
    the diameter and leaves the store as it was, or appends the new
    object and returns its address. *)
Lemma NearEarthObject_init_run pdes name diameter pha extra σ :
  NearEarthObject_init pdes name diameter pha extra σ =
  match Py.float (diameter_input diameter) with
  | inl e => (inl e, σ)
  | inr d =>
      (inr (length (neo_objects σ)),
       mk_store
         (neo_objects σ ++
            [mk_neo (Py.str pdes) (name_of_input (default (PyStr "") name)) d
               (hazardous_of_input (default (PyStr "N") pha)) [] extra])
         (approach_objects σ))
  end.
Proof.
  unfold NearEarthObject_init, diameter_input, name_of_input, hazardous_of_input.
  unfold mbind, M_bind, lift, new_neo.
  set (f := Py.float). set (d0 := default (PyStr "") diameter).
  set (n0 := Py.str (default (PyStr "") name)).
  set (p0 := default (PyStr "N") pha).
  destruct (Py.truthy d0); cbn [negb];
    (destruct (f _) as [e|d]; [done|]);
    cbn [Py.truthy]; destruct (String.eqb n0 ""); cbn [negb];
    destruct (Py.eq_str p0 "N"); cbn [negb andb Py.truthy String.eqb]; done.
Qed.

Lemma NearEarthObject_init_inv pdes name diameter pha extra σ a σ' :
  NearEarthObject_init pdes name diameter pha extra σ = (inr a, σ') ->
  exists d,
    Py.float (diameter_input diameter) = inr d /\
    a = length (neo_objects σ) /\
    approach_objects σ' = approach_objects σ /\
    neo_objects σ' =
      neo_objects σ ++
        [mk_neo (Py.str pdes) (name_of_input (default (PyStr "") name)) d
           (hazardous_of_input (default (PyStr "N") pha)) [] extra].
Proof.
  rewrite NearEarthObject_init_run.
  destruct (Py.float _) as [e|d]; [done|].
  intros [= <- <-]. by exists d.
Qed.

Lemma lookup_new {A} (l : list A) (x : A) : (l ++ [x]) !! length l = Some x.
Proof. by rewrite list_lookup_middle. Qed.

(** C7: a near-Earth object constructed with an empty-string name, or
    with no name at all (the argument is not passed), stores [None] as
    its name, never the empty string. *)
Theorem C7_empty_name_is_None pdes nm diameter pha extra σ a σ' :
  nm = None \/ nm = Some (PyStr "") ->
  NearEarthObject_init pdes nm diameter pha extra σ = (inr a, σ') ->
  exists o, neo_objects σ' !! a = Some o
            /\ name o = None /\ name o <> Some "".
Proof.
  intros Hname Hrun.
  apply NearEarthObject_init_inv in Hrun as (d & _ & -> & _ & ->).
  eexists. split; [apply lookup_new|]. simpl.
  destruct Hname as [-> | ->]; simpl; by split.
Qed.

Lemma C7_witness :
  exists o,
    neo_objects
      (NearEarthObject_init (PyStr "2015 AB") (Some (PyStr "")) (Some (PyStr ""))
         (Some (PyStr "Y")) [] empty_store).2 !! 0%nat = Some o
    /\ name o = None /\ name o <> Some "".
Proof.
  apply (C7_empty_name_is_None (PyStr "2015 AB") (Some (PyStr "")) (Some (PyStr ""))
           (Some (PyStr "Y")) [] empty_store 0%nat).
  - right. reflexivity.
  - vm_compute. reflexivity.
Defined.

(** C10: the stored name is [None] only when the name input coerces to
    the empty string; any other input is stored as its coercion.  In
    particular the Python value [None] coerces to the string ['None'],
    which is what is stored. *)
Theorem C10_name_is_coerced pdes v diameter pha extra σ a σ' :
  NearEarthObject_init pdes (Some v) diameter pha extra σ = (inr a, σ') ->
  exists o, neo_objects σ' !! a = Some o
            /\ (name o = None <-> Py.str v = "")
            /\ (Py.str v <> "" -> name o = Some (Py.str v))
            /\ (v = PyNone -> name o = Some "None").
Proof.
  intros Hrun.
  apply NearEarthObject_init_inv in Hrun as (d & _ & -> & _ & ->).
  eexists. split; [apply lookup_new|]. simpl. unfold name_of_input.
  destruct (String.eqb_spec (Py.str v) "") as [E|E].
  - rewrite E. repeat split; try done. intros ->. discriminate E.
  - repeat split; try done. by intros ->.
Qed.

Lemma C10_witness :
  exists o,
    neo_objects
      (NearEarthObject_init (PyStr "433") (Some PyNone) None None [] empty_store).2
      !! 0%nat = Some o
    /\ (name o = None <-> Py.str PyNone = "")
    /\ (Py.str PyNone <> "" -> name o = Some (Py.str PyNone))
    /\ (PyNone = PyNone -> name o = Some "None").
Proof.
  apply (C10_name_is_coerced (PyStr "433") PyNone None None [] empty_store 0%nat).
  vm_compute. reflexivity.
Defined.

(** C8: [hazardous] is [False] exactly when the hazard flag is ['N']
    (the default when the flag is not passed) or falsy, which for a
    string means empty; for any other value it is [True]. *)
Theorem C8_hazardous_flag pdes nm diameter pha extra σ a σ' :
  NearEarthObject_init pdes nm diameter pha extra σ = (inr a, σ') ->
  exists o, neo_objects σ' !! a = Some o
    /\ (hazardous o = false <->
          default (PyStr "N") pha = PyStr "N"
          \/ Py.truthy (default (PyStr "N") pha) = false)
    /\ (forall s, pha = Some (PyStr s) ->
          hazardous o = if String.eqb s "N" || String.eqb s "" then false else true).
Proof.
  intros Hrun.
  apply NearEarthObject_init_inv in Hrun as (d & _ & -> & _ & ->).
  eexists. split; [apply lookup_new|]. cbn [hazardous]. split.
  - unfold hazardous_of_input. set (v := default (PyStr "N") pha).
    split.
    + intros H. apply andb_false_iff in H as [H|H]; [left|by right].
      apply negb_false_iff in H. destruct v; try discriminate H.
      simpl in H. apply String.eqb_eq in H. by subst.
    + intros [-> | H]; [reflexivity|]. rewrite H. apply andb_false_r.
  - intros s ->. unfold hazardous_of_input. simpl.
    destruct (String.eqb s "N"), (String.eqb s ""); reflexivity.
Qed.

Lemma C8_witness :
  exists o,
    neo_objects
      (NearEarthObject_init (PyStr "2015 AB") None None (Some (PyStr "Y")) []
         empty_store).2 !! 0%nat = Some o
    /\ (hazardous o = false <->
          default (PyStr "N") (Some (PyStr "Y")) = PyStr "N"
          \/ Py.truthy (default (PyStr "N") (Some (PyStr "Y"))) = false)
    /\ (forall s, Some (PyStr "Y") = Some (PyStr s) ->
          hazardous o = if String.eqb s "N" || String.eqb s "" then false else true).
Proof.
  apply (C8_hazardous_flag (PyStr "2015 AB") None None (Some (PyStr "Y")) []
           empty_store 0%nat).
  vm_compute. reflexivity.
Defined.

(** C6: with an empty diameter, or none (the argument is not passed,
    or is [None]), the constructor succeeds and the diameter is the
    not-a-number float: it differs from itself and is not zero.  With
    a non-empty string that is not a float literal, the constructor
    raises [ValueError] and creates no object. *)
Theorem C6_unknown_diameter pdes nm diam pha extra σ :
  (diam = None \/ diam = Some (PyStr "") \/ diam = Some PyNone ->
   exists σ' o,
     NearEarthObject_init pdes nm diam pha extra σ
       = (inr (length (neo_objects σ)), σ')
     /\ neo_objects σ' !! length (neo_objects σ) = Some o
     /\ diameter o = S754_nan
     /\ Float.eqb (diameter o) (diameter o) = false
     /\ Float.is_zero (diameter o) = false)
  /\ (forall s, diam = Some (PyStr s) -> s <> "" -> Float.of_string s = None ->
      exists msg,
        NearEarthObject_init pdes nm diam pha extra σ = (inl (ValueError msg), σ)).
Proof.
  split.
  - intros Hd. rewrite NearEarthObject_init_run.
    assert (Py.float (diameter_input diam) = inr S754_nan) as ->
      by (destruct Hd as [-> | [-> | ->]]; vm_compute; reflexivity).
    do 2 eexists. split; [reflexivity|]. split; [apply lookup_new|]. done.
  - intros s -> Hs Hf. rewrite NearEarthObject_init_run.
    unfold diameter_input. cbn [default from_option id Py.truthy].
    destruct (String.eqb_spec s "") as [E|_]; [done|]. cbn [negb Py.float].
    rewrite Hf. eauto.
Qed.

Lemma C6_witness :
  (exists σ' o,
     NearEarthObject_init (PyStr "2015 AB") None (Some (PyStr "")) None [] empty_store
       = (inr 0%nat, σ')
     /\ neo_objects σ' !! 0%nat = Some o
     /\ diameter o = S754_nan
     /\ Float.eqb (diameter o) (diameter o) = false
     /\ Float.is_zero (diameter o) = false)
  /\ (exists msg,
        NearEarthObject_init (PyStr "2015 AB") None (Some (PyStr "unknown")) None []
          empty_store = (inl (ValueError msg), empty_store)).
Proof.
  split.
  - apply (C6_unknown_diameter (PyStr "2015 AB") None (Some (PyStr "")) None []
             empty_store).
    right. left. reflexivity.
  - apply (C6_unknown_diameter (PyStr "2015 AB") None (Some (PyStr "unknown")) None []
             empty_store) with (s := "unknown").
    + reflexivity.
    + discriminate.
    + vm_compute. reflexivity.
Defined.

(** ** Zero-padded fields *)

Lemma below_elem (k n : N) : (n < k)%N -> In n (below k).
Proof.
  intros H. unfold below. apply in_map_iff. exists (N.to_nat n).
  split; [apply N2Nat.id|]. apply in_seq. lia.
Qed.

Lemma is_digit_chars c : Chars.is_digit c = true -> In c digit_chars.
Proof.
  destruct c as [[] [] [] [] [] [] [] []]; intros H;
    try discriminate H; vm_compute; tauto.
Qed.

Lemma pad2_read n :
  (n < 100)%N ->
  exists a b, Decimal.pad 2 n = string2 a b
              /\ forallb Chars.is_digit [a; b] = true /\ Decimal.value [a; b] = n.
Proof.
  intros H.
  assert (forallb pad2_reads_back (below 100) = true) as Hall
    by (vm_compute; reflexivity).
  rewrite forallb_forall in Hall. specialize (Hall n (below_elem 100 n H)).
  unfold pad2_reads_back in Hall.
  destruct (list_ascii_of_string (Decimal.pad 2 n)) as [|a [|b [|]]] eqn:E;
    try discriminate Hall.
  apply andb_true_iff in Hall as [Hd Hv]. apply N.eqb_eq in Hv.
  exists a, b. split; [|done].
  rewrite <- (string_of_list_ascii_of_string (Decimal.pad 2 n)), E. reflexivity.
Qed.

Lemma pad4_read n :
  (n < 10000)%N ->
  exists a b c d, Decimal.pad 4 n = string4 a b c d
    /\ forallb Chars.is_digit [a; b; c; d] = true
    /\ Decimal.value [a; b; c; d] = n.
Proof.
  intros H.
  assert (forallb pad4_reads_back (below 10000) = true) as Hall
    by (vm_compute; reflexivity).
  rewrite forallb_forall in Hall. specialize (Hall n (below_elem 10000 n H)).
  unfold pad4_reads_back in Hall.
  destruct (list_ascii_of_string (Decimal.pad 4 n)) as [|a [|b [|c [|d [|]]]]] eqn:E;
    try discriminate Hall.
  apply andb_true_iff in Hall as [Hd Hv]. apply N.eqb_eq in Hv.
  exists a, b, c, d. split; [|done].
  rewrite <- (string_of_list_ascii_of_string (Decimal.pad 4 n)), E. reflexivity.
Qed.

Lemma pad2_write a b :
  Chars.is_digit a = true -> Chars.is_digit b = true ->
  Decimal.pad 2 (Decimal.value [a; b]) = string2 a b.
Proof.
  intros Ha%is_digit_chars Hb%is_digit_chars.
  assert (forallb (fun a => forallb (value2_writes_back a) digit_chars) digit_chars
          = true) as Hall by (vm_compute; reflexivity).
  rewrite forallb_forall in Hall. specialize (Hall a Ha).
  rewrite forallb_forall in Hall. specialize (Hall b Hb).
  by apply String.eqb_eq.
Qed.

Lemma pad4_write a b c d :
  Chars.is_digit a = true -> Chars.is_digit b = true ->
  Chars.is_digit c = true -> Chars.is_digit d = true ->
  Decimal.pad 4 (Decimal.value [a; b; c; d]) = string4 a b c d.
Proof.
  intros Ha%is_digit_chars Hb%is_digit_chars Hc%is_digit_chars Hd%is_digit_chars.
  assert (forallb (fun a => forallb (fun b => forallb (fun c =>
            forallb (value4_writes_back a b c) digit_chars)
            digit_chars) digit_chars) digit_chars = true) as Hall
    by (vm_compute; reflexivity).
  rewrite forallb_forall in Hall. specialize (Hall a Ha).
  rewrite forallb_forall in Hall. specialize (Hall b Hb).
  rewrite forallb_forall in Hall. specialize (Hall c Hc).
  rewrite forallb_forall in Hall. specialize (Hall d Hd).
  by apply String.eqb_eq.
Qed.

(** ** Reading and writing the approach time *)

(** Writing a timestamp and reading it back. *)
Lemma cd_to_datetime_to_str y m d h n :
  helpers.valid_datetime (helpers.mk_datetime y m d h n 0) = true ->
  helpers.cd_to_datetime
    (PyStr (helpers.datetime_to_str (helpers.mk_datetime y m d h n 0)))
  = inr (helpers.mk_datetime y m d h n 0).
Proof.
  intros Hv. pose proof Hv as Hv'. unfold helpers.valid_datetime in Hv'.
  cbn [helpers.year helpers.month helpers.day helpers.hour helpers.minute
       helpers.second] in Hv'.
  repeat (apply andb_true_iff in Hv' as [Hv' ?]).
  repeat match goal with H : (_ <=? _)%N = true |- _ => apply N.leb_le in H end.
  assert (d <= 31)%N.
  { etrans; [eassumption|]. unfold helpers.days_in_month.
    repeat case_match; lia. }
  destruct (pad4_read y) as (y1 & y2 & y3 & y4 & Ey & Dy & Vy); [lia|].
  destruct (pad2_read m) as (m1 & m2 & Em & Dm & Vm); [lia|].
  destruct (pad2_read d) as (d1 & d2 & Ed & Dd & Vd); [lia|].
  destruct (pad2_read h) as (h1 & h2 & Eh & Dh & Vh); [lia|].
  destruct (pad2_read n) as (n1 & n2 & En & Dn & Vn); [lia|].
  unfold helpers.datetime_to_str.
  cbn [helpers.year helpers.month helpers.day helpers.hour helpers.minute].
  rewrite Ey, Em, Ed, Eh, En. unfold helpers.cd_to_datetime.
  match goal with |- context [list_ascii_of_string ?w] =>
    change (list_ascii_of_string w)
      with [y1; y2; y3; y4; "-"%char; m1; m2; "-"%char; d1; d2; " "%char;
            h1; h2; ":"%char; n1; n2]
  end.
  cbv beta iota zeta.
  rewrite Vy, Vm, Vd, Vh, Vn, Hv.
  cbn [forallb] in *.
  repeat match goal with
         | H : _ && _ = true |- _ => apply andb_true_iff in H as [? ?]
         end.
  repeat match goal with
         | H : Chars.is_digit _ = true |- _ => rewrite H; clear H
         end.
  reflexivity.
Qed.

(** Reading a string and writing the timestamp back. *)
Lemma datetime_to_str_of_cd s t :
  helpers.cd_to_datetime (PyStr s) = inr t -> helpers.datetime_to_str t = s.
Proof.
  unfold helpers.cd_to_datetime.
  generalize (string_of_list_ascii_of_string s).
  destruct (list_ascii_of_string s)
    as [|y1 [|y2 [|y3 [|y4 [|s1 [|m1 [|m2 [|s2 [|d1 [|d2 [|s3 [|h1 [|h2 [|s4
         [|n1 [|n2 [|]]]]]]]]]]]]]]]]]; try discriminate.
  intros <-. destruct (_ && _) eqn:Hc; [|discriminate]. intros [= <-].
  do 5 (apply andb_true_iff in Hc as [Hc ?]).
  cbn [forallb] in Hc.
  do 12 (apply andb_true_iff in Hc as [? Hc]).
  repeat match goal with
         | H : Ascii.eqb _ _ = true |- _ => apply Ascii.eqb_eq in H; subst
         end.
  unfold helpers.datetime_to_str.
  cbn [helpers.year helpers.month helpers.day helpers.hour helpers.minute].
  rewrite pad4_write, !pad2_write by assumption.
  reflexivity.
Qed.

(** What is read is a date of the calendar, to the minute. *)
Lemma cd_to_datetime_valid cd t :
  helpers.cd_to_datetime cd = inr t ->
  helpers.valid_datetime t = true /\ helpers.second t = 0%N.
Proof.
  unfold helpers.cd_to_datetime. destruct cd as [| | | |s|]; try discriminate.
  destruct (list_ascii_of_string s)
    as [|y1 [|y2 [|y3 [|y4 [|s1 [|m1 [|m2 [|s2 [|d1 [|d2 [|s3 [|h1 [|h2 [|s4
         [|n1 [|n2 [|]]]]]]]]]]]]]]]]]; try discriminate.
  destruct (_ && _) eqn:Hc; [|discriminate]. intros [= <-].
  apply andb_true_iff in Hc as [_ Hv]. by split.
Qed.

(** The strings the parse step accepts are the valid ones. *)
Lemma valid_cd_accepted s :
  valid_cd s <-> exists t, helpers.cd_to_datetime (PyStr s) = inr t.
Proof.
  split.
  - intros (y & m & d & h & n & Hv & ->). eexists.
    by apply (cd_to_datetime_to_str y m d h n).
  - intros [t Ht]. pose proof (datetime_to_str_of_cd s t Ht) as Hs.
    apply cd_to_datetime_valid in Ht as [Hv H0].
    destruct t as [y m d h n sec]. cbn in H0. subst sec.
    exists y, m, d, h, n. split; [exact Hv|]. by rewrite <- Hs.
Qed.

(** C1: for every valid minute-precision date-time string [s], a close
    approach constructed with [s] as its date-time has [s] itself as its
    [time_str]: nothing is added, neither seconds nor a time zone. *)
Theorem C1_time_str_round_trip des s dist v_rel extra σ d v :
  valid_cd s ->
  Py.float dist = inr d -> Py.float v_rel = inr v ->
  exists a σ',
    CloseApproach_init des (PyStr s) dist v_rel extra σ = (inr a, σ')
    /\ time_str a σ' = (inr s, σ').
Proof.
  intros Hs Hd Hv. apply valid_cd_accepted in Hs as [t Ht].
  unfold CloseApproach_init, mbind, M_bind, lift, new_approach.
  rewrite Ht, Hd, Hv. do 2 eexists. split; [reflexivity|].
  unfold time_str, mbind, M_bind, load_approach. cbn [approach_objects].
  rewrite lookup_new. cbn [time mret M_ret].
  by rewrite (datetime_to_str_of_cd s t Ht).
Qed.

Lemma C1_witness :
  exists a σ',
    CloseApproach_init (PyStr "433") (PyStr "1900-12-27 01:30") (PyStr "0.0092")
      (PyStr "5.58") [] empty_store = (inr a, σ')
    /\ time_str a σ' = (inr "1900-12-27 01:30", σ').
Proof.
  eapply (C1_time_str_round_trip (PyStr "433") "1900-12-27 01:30" (PyStr "0.0092")
            (PyStr "5.58") [] empty_store).
  - exists 1900%N, 12%N, 27%N, 1%N, 30%N. split; vm_compute; reflexivity.
  - vm_compute. reflexivity.
  - vm_compute. reflexivity.
Defined.

(** ** Serialization *)

(** On a linked close approach [serialize] reads the store, leaves it
    as it is, and its outcome depends on the two objects only. *)
Lemma time_str_run σ e c :
  approach_objects σ !! e = Some c ->
  time_str e σ = (inr (helpers.datetime_to_str (time c)), σ).
Proof.
  intros Hc. unfold time_str.
  by rewrite (bind_inr _ _ _ _ _ (load_approach_Some _ _ _ Hc)).
Qed.

Lemma serialize_run σ e c o extension :
  linked σ e c o ->
  serialize e extension σ = (serialized c o extension, σ).
Proof.
  intros (Hc & b & Hb & Ho). unfold serialize.
  rewrite (bind_inr _ _ _ _ _ (load_approach_Some _ _ _ Hc)).
  unfold load_neo_of. rewrite Hb.
  rewrite (bind_inr _ _ _ _ _ (load_neo_Some _ _ _ Ho)).
  rewrite (bind_inr _ _ _ _ _ (time_str_run _ _ _ Hc)).
  unfold serialized.
  destruct (Py.eq_str extension "csv").
  { unfold attributes_of. destruct (name o); reflexivity. }
  destruct (Py.eq_str extension "json").
  { unfold attributes_of. destruct (name o); reflexivity. }
  reflexivity.
Qed.

Lemma eq_str_true v s : Py.eq_str v s = true <-> v = PyStr s.
Proof.
  destruct v; simpl; try (split; [discriminate|intros [=]]).
  rewrite String.eqb_eq. split; [by intros ->|by intros [= ->]].
Qed.

Lemma eros_program_run : eros_program empty_store = (inr (), eros_store).
Proof. vm_compute. reflexivity. Qed.

Lemma eros_linked : linked eros_store 0%nat eros_approach eros.
Proof. split; [reflexivity|]. exists 0%nat. split; reflexivity. Qed.

(** C4: on a linked close approach, [serialize('csv')] returns the seven
    keys in their fixed order, each with a string (the empty string
    for an absent name), and [serialize('json')] returns the first
    three keys with a string and two floats, and under ['neo'] the other
    four keys with two strings, a float and a boolean. *)
Theorem C4_serialize_shapes σ e c o :
  linked σ e c o ->
  serialize e (PyStr "csv") σ =
    (inr (PyDict
            [("datetime_utc", PyStr (helpers.datetime_to_str (time c)));
             ("distance_au", PyStr (Float.repr (distance c)));
             ("velocity_km_s", PyStr (Float.repr (velocity c)));
             ("designation", PyStr (designation o));
             ("name", PyStr (match name o with Some n => n | None => "" end));
             ("diameter_km", PyStr (Float.repr (diameter o)));
             ("potentially_hazardous",
              PyStr (if hazardous o then "True" else "False"))]), σ)
  /\ serialize e (PyStr "json") σ =
    (inr (PyDict
            [("datetime_utc", PyStr (helpers.datetime_to_str (time c)));
             ("distance_au", PyFloat (distance c));
             ("velocity_km_s", PyFloat (velocity c));
             ("neo",
              PyDict
                [("designation", PyStr (designation o));
                 ("name", PyStr (match name o with Some n => n | None => "" end));
                 ("diameter_km", PyFloat (diameter o));
                 ("potentially_hazardous", PyBool (hazardous o))])]), σ).
Proof.
  intros H. rewrite !(serialize_run _ _ _ _ _ H). unfold serialized, attributes_of.
  split.
  - cbn [Py.eq_str String.eqb Ascii.eqb Bool.eqb]. cbn [zip combine fieldnames map Py.str Py.repr].
    destruct (name o), (hazardous o); reflexivity.
  - destruct (name o); reflexivity.
Qed.

Lemma C4_witness :
  serialize 0%nat (PyStr "csv") eros_store =
    (inr (PyDict
            [("datetime_utc", PyStr "1900-12-27 01:30");
             ("distance_au", PyStr "0.0092");
             ("velocity_km_s", PyStr "5.58");
             ("designation", PyStr "433");
             ("name", PyStr "Eros");
             ("diameter_km", PyStr "16.84");
             ("potentially_hazardous", PyStr "False")]), eros_store)
  /\ serialize 0%nat (PyStr "json") eros_store =
    (inr (PyDict
            [("datetime_utc", PyStr "1900-12-27 01:30");
             ("distance_au", PyFloat (distance eros_approach));
             ("velocity_km_s", PyFloat (velocity eros_approach));
             ("neo",
              PyDict
                [("designation", PyStr "433");
                 ("name", PyStr "Eros");
                 ("diameter_km", PyFloat (diameter eros));
                 ("potentially_hazardous", PyBool false)])]), eros_store).
Proof.
  apply (C4_serialize_shapes eros_store 0%nat eros_approach eros).
  split; [reflexivity|]. exists 0%nat. split; reflexivity.
Defined.

(** C5: on a linked close approach, [serialize] raises [ValueError]
    exactly when the requested shape is neither ['csv'] nor ['json'];
    it returns normally on these two, and raises nothing else. *)
Theorem C5_serialize_error σ e c o extension :
  linked σ e c o ->
  ((exists msg, serialize e extension σ = (inl (ValueError msg), σ))
   <-> extension <> PyStr "csv" /\ extension <> PyStr "json")
  /\ (extension = PyStr "csv" \/ extension = PyStr "json" ->
      exists r, serialize e extension σ = (inr r, σ))
  /\ (forall err σ', serialize e extension σ = (inl err, σ') ->
      is_ValueError err = true).
Proof.
  intros H. rewrite (serialize_run _ _ _ _ _ H). unfold serialized.
  destruct (Py.eq_str extension "csv") eqn:Ecsv.
  { apply eq_str_true in Ecsv as ->. split_and!.
    - split; [by intros [? ?]|by intros [? _]].
    - eauto.
    - intros ? ? [=]. }
  destruct (Py.eq_str extension "json") eqn:Ejson.
  { apply eq_str_true in Ejson as ->. split_and!.
    - split; [by intros [? ?]|by intros [_ ?]].
    - eauto.
    - intros ? ? [=]. }
  split_and!.
  - split; [|eauto]. intros _.
    split; intros ->; [discriminate Ecsv|discriminate Ejson].
  - intros [-> | ->]; [discriminate Ecsv|discriminate Ejson].
  - by intros ? ? [= <- _].
Qed.

Lemma C5_witness :
  ((exists msg, serialize 0%nat (PyStr "xml") eros_store = (inl (ValueError msg), eros_store))
   <-> PyStr "xml" <> PyStr "csv" /\ PyStr "xml" <> PyStr "json")
  /\ (PyStr "xml" = PyStr "csv" \/ PyStr "xml" = PyStr "json" ->
      exists r, serialize 0%nat (PyStr "xml") eros_store = (inr r, eros_store))
  /\ (forall err σ', serialize 0%nat (PyStr "xml") eros_store = (inl err, σ') ->
      is_ValueError err = true).
Proof.
  apply (C5_serialize_error eros_store 0%nat eros_approach eros (PyStr "xml")).
  split; [reflexivity|]. exists 0%nat. split; reflexivity.
Defined.

Lemma serialize_recognized σ e c o extension :
  linked σ e c o ->
  extension = PyStr "csv" \/ extension = PyStr "json" ->
  exists r, serialize e extension σ = (inr r, σ).
Proof.
  intros H Hext. rewrite (serialize_run _ _ _ _ _ H).
  destruct Hext as [-> | ->]; eexists; reflexivity.
Qed.

(** C9: on a linked close approach and for each of the two shapes,
    two calls of [serialize] in a row return the same mapping, and the
    store after each of them is the store before: no attribute of any
    object has changed. *)
Theorem C9_serialize_twice σ e c o extension :
  linked σ e c o ->
  extension = PyStr "csv" \/ extension = PyStr "json" ->
  exists r,
    serialize e extension σ = (inr r, σ)
    /\ (first ← serialize e extension;
        second ← serialize e extension;
        mret (first, second)) σ = (inr (r, r), σ).
Proof.
  intros H Hext.
  destruct (serialize_recognized σ e c o extension H Hext) as [r Hr].
  exists r. split; [exact Hr|].
  by rewrite (bind_inr _ _ _ _ _ Hr), (bind_inr _ _ _ _ _ Hr).
Qed.

Lemma C9_witness :
  exists r,
    serialize 0%nat (PyStr "json") eros_store = (inr r, eros_store)
    /\ (first ← serialize 0%nat (PyStr "json");
        second ← serialize 0%nat (PyStr "json");
        mret (first, second)) eros_store = (inr (r, r), eros_store).
Proof.
  apply (C9_serialize_twice eros_store 0%nat eros_approach eros (PyStr "json")).
  - split; [reflexivity|]. exists 0%nat. split; reflexivity.
  - right. reflexivity.
Defined.

(** ** The designation is never changed *)

Lemma keeps_ret {A} (x : A) : keeps_designations (mret x).
Proof. by intros σ a d H. Qed.

Lemma keeps_raise {A} (e : exn) : keeps_designations (raise (A := A) e).
Proof. by intros σ a d H. Qed.

Lemma keeps_lift {A} (r : exn + A) : keeps_designations (lift r).
Proof. by intros σ a d H. Qed.

Lemma keeps_bind {A B} (m : M A) (f : A -> M B) :
  keeps_designations m -> (forall x, keeps_designations (f x)) ->
  keeps_designations (m ≫= f).
Proof.
  intros Hm Hf σ a d H. unfold mbind, M_bind.
  specialize (Hm σ a d H). destruct (m σ) as [[e|x] σ']; [done|].
  by apply Hf.
Qed.

Lemma keeps_load_neo a : keeps_designations (load_neo a).
Proof. intros σ b d H. unfold load_neo. by destruct (_ !! a). Qed.

Lemma keeps_load_approach a : keeps_designations (load_approach a).
Proof. intros σ b d H. unfold load_approach. by destruct (_ !! a). Qed.

Lemma keeps_update_approach a f : keeps_designations (update_approach a f).
Proof.
  apply keeps_bind; [apply keeps_load_approach|]. by intros c σ b d H.
Qed.

Lemma keeps_update_neo a f :
  (forall o, designation (f o) = designation o) ->
  keeps_designations (update_neo a f).
Proof.
  intros Hf σ b d H. unfold update_neo, mbind, M_bind, load_neo.
  destruct (neo_objects σ !! a) as [o|] eqn:Ho; [|done].
  unfold designation_at in *. cbn.
  destruct (decide (a = b)) as [->|Hne].
  - rewrite list_lookup_insert_eq by (by eapply lookup_lt_Some).
    rewrite Ho in H. cbn in *. by rewrite Hf.
  - by rewrite list_lookup_insert_ne.
Qed.

Lemma keeps_new_neo o : keeps_designations (new_neo o).
Proof.
  intros σ a d H. unfold designation_at in *. cbn.
  destruct (neo_objects σ !! a) as [o'|] eqn:Ho; [|done].
  by rewrite (lookup_app_l_Some _ _ _ _ Ho).
Qed.

Lemma keeps_new_approach c : keeps_designations (new_approach c).
Proof. by intros σ a d H. Qed.

Ltac keeps :=
  repeat first
    [ assumption
    | simple apply keeps_bind; [|intros ?]
    | simple apply keeps_ret
    | simple apply keeps_raise
    | simple apply keeps_lift
    | simple apply keeps_load_neo
    | simple apply keeps_load_approach
    | simple apply keeps_update_approach
    | simple apply keeps_new_neo
    | simple apply keeps_new_approach
    | match goal with
      | H : forall x, keeps_designations (?f x) |- keeps_designations (?f _) =>
          simple apply H
      | |- keeps_designations (match ?x with _ => _ end) => destruct x
      | |- keeps_designations (if ?x then _ else _) => destruct x
      end ].

Lemma keeps_NearEarthObject_init pdes nm diam pha extra :
  keeps_designations (NearEarthObject_init pdes nm diam pha extra).
Proof. unfold NearEarthObject_init. keeps. Qed.

Lemma keeps_CloseApproach_init des cd dist v_rel extra :
  keeps_designations (CloseApproach_init des cd dist v_rel extra).
Proof. unfold CloseApproach_init. keeps. Qed.

Lemma keeps_time_str e : keeps_designations (time_str e).
Proof. unfold time_str. keeps. Qed.

Lemma keeps_fullname b : keeps_designations (fullname b).
Proof. unfold fullname. keeps. Qed.

Lemma keeps_NearEarthObject_str b : keeps_designations (NearEarthObject_str b).
Proof. unfold NearEarthObject_str. pose proof keeps_fullname. keeps. Qed.

Lemma keeps_NearEarthObject_repr b : keeps_designations (NearEarthObject_repr b).
Proof. unfold NearEarthObject_repr. keeps. Qed.

Lemma keeps_CloseApproach_str e : keeps_designations (CloseApproach_str e).
Proof.
  unfold CloseApproach_str. pose proof keeps_fullname. pose proof keeps_time_str.
  keeps.
Qed.

Lemma keeps_CloseApproach_repr e : keeps_designations (CloseApproach_repr e).
Proof.
  unfold CloseApproach_repr. pose proof keeps_NearEarthObject_repr.
  pose proof keeps_time_str. keeps.
Qed.

Lemma keeps_assign_neo e neos : keeps_designations (assign_neo e neos).
Proof.
  unfold assign_neo. keeps. apply keeps_update_neo. by intros [].
Qed.

Lemma keeps_serialize e extension : keeps_designations (serialize e extension).
Proof.
  unfold serialize, load_neo_of. pose proof keeps_time_str. keeps.
Qed.

Lemma keeps_for_each {A B} (f : A -> M B) l :
  (forall x, keeps_designations (f x)) -> keeps_designations (for_each f l).
Proof. intros Hf. induction l as [|x l IH]; simpl; keeps. Qed.

Lemma keeps_index_by_designation bodies neos :
  keeps_designations (index_by_designation bodies neos).
Proof. revert neos. induction bodies as [|b bodies IH]; intros neos; simpl; keeps. Qed.

Lemma keeps_link bodies events : keeps_designations (link bodies events).
Proof.
  unfold link. apply keeps_bind; [apply keeps_index_by_designation|].
  intros neos. apply keeps_for_each. intros e. apply keeps_assign_neo.
Qed.

Lemma perform_keeps op σ a d :
  designation_at σ a = Some d -> designation_at (perform op σ) a = Some d.
Proof.
  destruct op; simpl;
    [ apply keeps_NearEarthObject_init | apply keeps_CloseApproach_init
    | apply keeps_assign_neo | apply keeps_link | apply keeps_serialize
    | apply keeps_time_str | apply keeps_fullname | apply keeps_NearEarthObject_str
    | apply keeps_NearEarthObject_repr | apply keeps_CloseApproach_str
    | apply keeps_CloseApproach_repr ].
Qed.

Lemma perform_all_keeps ops σ a d :
  designation_at σ a = Some d -> designation_at (perform_all ops σ) a = Some d.
Proof.
  revert σ. induction ops as [|op ops IH]; intros σ H; [done|].
  simpl. apply IH. by apply perform_keeps.
Qed.

(** The claim that a designation is never empty fails: the constructor
    stores the coercion of its argument as it is, and the coercion of
    the empty string is empty. *)
Lemma C3_counterexample :
  exists a σ' o,
    NearEarthObject_init (PyStr "") None None None [] empty_store = (inr a, σ')
    /\ neo_objects σ' !! a = Some o
    /\ designation o = "".
Proof.
  exists 0%nat, (mk_store [mk_neo "" None S754_nan false [] []] []),
    (mk_neo "" None S754_nan false [] []).
  split_and!; [vm_compute; reflexivity|reflexivity|reflexivity].
Qed.

(** C3, amended: after construction the designation of a near-Earth
    object is the string coercion of the designation input (empty only
    if that is), and it stays that string through any sequence of
    operations: constructions, linking, serialization and renderings. *)
Theorem C3_designation_is_kept pdes nm diam pha extra σ a σ' ops :
  NearEarthObject_init pdes nm diam pha extra σ = (inr a, σ') ->
  designation_at σ' a = Some (Py.str pdes)
  /\ designation_at (perform_all ops σ') a = Some (Py.str pdes).
Proof.
  intros Hrun.
  assert (designation_at σ' a = Some (Py.str pdes)) as H.
  { apply NearEarthObject_init_inv in Hrun as (d & _ & -> & _ & E).
    unfold designation_at. by rewrite E, lookup_new. }
  split; [exact H|]. by apply perform_all_keeps.
Qed.

Lemma C3_witness :
  designation_at eros_store 0%nat = Some "433"
  /\ designation_at
       (perform_all
          [New_CloseApproach (PyStr "433") (PyStr "1900-12-27 01:30")
             (PyStr "0.0092") (PyStr "5.58") [];
           Call_link [0%nat] [0%nat]; Call_serialize 0%nat (PyStr "csv");
           Str_NearEarthObject 0%nat; Repr_CloseApproach 0%nat]
          (mk_store [set_approaches [] eros] [])) 0%nat = Some "433".
Proof.
  split; [reflexivity|].
  apply (C3_designation_is_kept (PyStr "433") (Some (PyStr "Eros"))
           (Some (PyStr "16.84")) (Some (PyStr "N")) [] empty_store 0%nat
           (mk_store [set_approaches [] eros] [])).
  vm_compute. reflexivity.
Defined.

(** ** Linking *)

(** One call of [assign_neo]: it returns, the event refers to the body
    the map gives for its designation, or to nothing, and that body
    has the event appended to its approaches. *)
Lemma assign_neo_run σ e c neos :
  approach_objects σ !! e = Some c -> keyed σ neos ->
  exists σ',
    assign_neo e neos σ = (inr e, σ')
    /\ (forall e' c', approach_objects σ !! e' = Some c' ->
          approach_objects σ' !! e' =
            Some (if bool_decide (e' = e)
                  then set_neo (neos !! _designation c) c' else c'))
    /\ (forall b o, neo_objects σ !! b = Some o ->
          neo_objects σ' !! b =
            Some (if bool_decide (neos !! _designation c = Some b)
                  then set_approaches (approaches o ++ [e]) o else o))
    /\ (forall e', event_designation σ' e' = event_designation σ e').
Proof.
  intros Hc Hkey. unfold assign_neo.
  assert (forall x e',
            _designation <$> <[e := set_neo x c]> (approach_objects σ) !! e'
            = event_designation σ e') as Hdes.
  { intros x e'. unfold event_designation. destruct (decide (e = e')) as [<-|Hne].
    - rewrite list_lookup_insert_eq by (by eapply lookup_lt_Some). by rewrite Hc.
    - by rewrite list_lookup_insert_ne. }
  rewrite (bind_inr _ _ _ _ _ (load_approach_Some _ _ _ Hc)).
  pose proof (lookup_lt_Some _ _ _ Hc) as Hlt.
  destruct (neos !! _designation c) as [b|] eqn:Hn.
  - destruct (Hkey _ _ Hn) as (o & Ho & Hd).
    pose proof (lookup_lt_Some _ _ _ Ho) as Hltb.
    set (σ1 := store_approach e (set_neo (Some b) c) σ).
    assert (update_approach e (set_neo (Some b)) σ = (inr (), σ1)) as H1.
    { unfold update_approach.
      by rewrite (bind_inr _ _ _ _ _ (load_approach_Some _ _ _ Hc)). }
    assert (approach_objects σ1 !! e = Some (set_neo (Some b) c)) as Hc1
      by (by apply list_lookup_insert_eq).
    set (σ2 := store_neo b (set_approaches (approaches o ++ [e]) o) σ1).
    assert (update_neo b (fun o => set_approaches (approaches o ++ [e]) o) σ1
            = (inr (), σ2)) as H2.
    { unfold update_neo.
      by rewrite (bind_inr _ _ _ _ _ (load_neo_Some b o σ1 Ho)). }
    exists σ2. split_and!.
    + erewrite bind_inr; [reflexivity|].
      rewrite (bind_inr _ _ _ _ _ H1).
      rewrite (bind_inr _ _ _ _ _ (load_approach_Some _ _ _ Hc1)).
      cbn [neo set_neo]. exact H2.
    + intros e' c' Hc'. cbn [σ2 σ1 store_neo store_approach approach_objects].
      case_bool_decide as He; [subst e'|by rewrite list_lookup_insert_ne].
      rewrite list_lookup_insert_eq by done. congruence.
    + intros b' o' Ho'. cbn [σ2 σ1 store_neo store_approach neo_objects].
      case_bool_decide as Hb;
        [|rewrite list_lookup_insert_ne; [done|by intros ->]].
      simplify_eq. by rewrite list_lookup_insert_eq.
    + apply Hdes.
  - set (σ1 := store_approach e (set_neo None c) σ).
    assert (update_approach e (set_neo None) σ = (inr (), σ1)) as H1.
    { unfold update_approach.
      by rewrite (bind_inr _ _ _ _ _ (load_approach_Some _ _ _ Hc)). }
    exists σ1. split_and!.
    + erewrite bind_inr; [reflexivity|exact H1].
    + intros e' c' Hc'. cbn [σ1 store_approach approach_objects].
      case_bool_decide as He; [subst e'|by rewrite list_lookup_insert_ne].
      rewrite list_lookup_insert_eq by done. congruence.
    + intros b o Ho. by rewrite bool_decide_eq_false_2.
    + apply Hdes.
Qed.

Lemma set_neo_set_neo x y c : set_neo x (set_neo y c) = set_neo x c.
Proof. reflexivity. Qed.

Lemma set_approaches_set_approaches l l' o :
  set_approaches l (set_approaches l' o) = set_approaches l o.
Proof. reflexivity. Qed.

Lemma set_approaches_id o : set_approaches (approaches o) o = o.
Proof. by destruct o. Qed.

(** The loop of the linking pass, from any store: every event of the
    list ends up referring to the body the map gives for its
    designation, and every body has gained, in order, the events of the
    list that the map sends to it. *)
Lemma for_each_assign_neo neos es σ :
  keyed σ neos ->
  (forall e, e ∈ es -> is_Some (approach_objects σ !! e)) ->
  exists σ',
    for_each (fun e => assign_neo e neos) es σ = (inr (), σ')
    /\ (forall e c, approach_objects σ !! e = Some c ->
          approach_objects σ' !! e =
            Some (if bool_decide (e ∈ es)
                  then set_neo (neos !! _designation c) c else c))
    /\ (forall b o, neo_objects σ !! b = Some o ->
          neo_objects σ' !! b =
            Some (set_approaches
                    (approaches o ++ filter (fun e => target neos σ e = Some b) es) o)).
Proof.
  revert σ. induction es as [|e es IH]; intros σ Hkey Hval.
  { exists σ. split_and!; [done|done|].
    intros b o Ho. by rewrite filter_nil, app_nil_r, set_approaches_id. }
  destruct (Hval e) as [c Hc]; [left|].
  destruct (assign_neo_run σ e c neos Hc Hkey) as (σ1 & Hrun & Happ1 & Hneo1 & Hdes1).
  destruct (IH σ1) as (σ' & Hloop & Happ & Hneo).
  { intros d b Hd. destruct (Hkey d b Hd) as (o & Ho & <-).
    eexists. split; [by apply Hneo1|]. by case_bool_decide. }
  { intros e' He'. destruct (Hval e') as [c' Hc']; [by right|].
    rewrite (Happ1 _ _ Hc'). eauto. }
  exists σ'. split_and!.
  - cbn [for_each]. by rewrite (bind_inr _ _ _ _ _ Hrun).
  - intros e' c' Hc'. rewrite (Happ _ _ (Happ1 _ _ Hc')).
    f_equal. destruct (decide (e' = e)) as [->|Hne].
    + assert (c' = c) as -> by congruence.
      rewrite (bool_decide_eq_true_2 (e = e)) by done.
      rewrite (bool_decide_eq_true_2 (e ∈ e :: es)) by left.
      by case_bool_decide.
    + rewrite (bool_decide_eq_false_2 (e' = e)) by done.
      rewrite (bool_decide_ext (e' ∈ es) (e' ∈ e :: es)); [done|].
      rewrite elem_of_cons. tauto.
  - intros b o Ho. rewrite (Hneo _ _ (Hneo1 _ _ Ho)). f_equal.
    assert (filter (fun e0 => target neos σ1 e0 = Some b) es
            = filter (fun e0 => target neos σ e0 = Some b) es) as ->.
    { apply list_filter_iff. intros e'. unfold target. by rewrite Hdes1. }
    assert (target neos σ e = neos !! _designation c) as Ht.
    { unfold target, event_designation. by rewrite Hc. }
    case_bool_decide as Hb.
    + rewrite filter_cons_True by congruence.
      rewrite set_approaches_set_approaches. cbn [approaches set_approaches].
      by rewrite <- app_assoc.
    + by rewrite filter_cons_False by congruence.
Qed.

Lemma occurrences_NoDup e l : NoDup l -> e ∈ l -> occurrences e l = 1%nat.
Proof.
  intros Hl He. apply NoDup_ListNoDup in Hl. apply list_elem_of_In in He.
  by apply NoDup_count_occ'.
Qed.

(** The map of the linking pass: it is built without touching the
    store, holds only bodies under their own designation, and holds
    every body whose designation no other body of the list has. *)
Lemma index_by_designation_run bodies neos σ :
  (forall b, b ∈ bodies -> is_Some (neo_objects σ !! b)) ->
  exists neos',
    index_by_designation bodies neos σ = (inr neos', σ)
    /\ (forall d b, neos' !! d = Some b ->
          b ∈ bodies /\ designation_at σ b = Some d \/ neos !! d = Some b)
    /\ (forall d b,
          neos !! d = Some b \/ b ∈ bodies /\ designation_at σ b = Some d ->
          (forall b', b' ∈ bodies -> designation_at σ b' = Some d -> b' = b) ->
          neos' !! d = Some b).
Proof.
  revert neos. induction bodies as [|b0 bodies IH]; intros neos Hval.
  { exists neos. split_and!; [done|by right|].
    intros d b [H|[H _]] _; [done|]. by apply elem_of_nil in H. }
  destruct (Hval b0) as [o0 Ho0]; [left|].
  destruct (IH (<[designation o0 := b0]> neos)) as (neos' & Hrun & Hin & Hout).
  { intros b Hb. apply Hval. by right. }
  assert (designation_at σ b0 = Some (designation o0)) as Hd0
    by (unfold designation_at; by rewrite Ho0).
  exists neos'. split_and!.
  - cbn [index_by_designation].
    by rewrite (bind_inr _ _ _ _ _ (load_neo_Some _ _ _ Ho0)).
  - intros d b Hb. destruct (Hin d b Hb) as [[H1 H2]|H].
    + left. split; [by right|done].
    + destruct (decide (designation o0 = d)) as [<-|Hne].
      * rewrite lookup_insert_eq in H. injection H as <-.
        left. split; [left|done].
      * rewrite lookup_insert_ne in H by done. by right.
  - intros d b Hb Huniq. apply Hout.
    + destruct (decide (designation o0 = d)) as [<-|Hne].
      * left. rewrite lookup_insert_eq. f_equal. apply Huniq; [left|done].
      * rewrite lookup_insert_ne by done.
        destruct Hb as [H|[H1 H2]]; [by left|].
        apply elem_of_cons in H1 as [->|H1]; [congruence|by right].
    + intros b' Hb'. apply Huniq. by right.
Qed.

(** The outcome of calling [assign_neo] on every event in turn, with
    the designation-keyed map of the bodies. *)
Lemma assign_neo_all σ bodies neos events :
  (forall b, b ∈ bodies ->
     exists o, neo_objects σ !! b = Some o /\ approaches o = []) ->
  designation_keyed σ bodies neos ->
  NoDup events ->
  (forall e, e ∈ events -> is_Some (approach_objects σ !! e)) ->
  exists σ',
    for_each (fun e => assign_neo e neos) events σ = (inr (), σ')
    /\ linking_outcome σ bodies events σ'.
Proof.
  intros Hbodies Hkeyed Hnodup Hval.
  assert (keyed σ neos) as Hkey.
  { intros d b H. apply Hkeyed in H as [_ Hd]. unfold designation_at in Hd.
    destruct (neo_objects σ !! b) as [o|]; [|done]. injection Hd as <-. eauto. }
  destruct (for_each_assign_neo neos events σ Hkey Hval) as (σ' & Hloop & Happ & Hneo).
  assert (forall b o', b ∈ bodies -> neo_objects σ' !! b = Some o' ->
            approaches o' = filter (fun e => target neos σ e = Some b) events) as Hafter.
  { intros b o' Hb Ho'. destruct (Hbodies b Hb) as (o & Ho & Hnil).
    rewrite (Hneo _ _ Ho), Hnil in Ho'. by injection Ho' as <-. }
  exists σ'. split; [exact Hloop|].
  intros e c He Hc.
  assert (target neos σ e = neos !! _designation c) as Ht.
  { unfold target, event_designation. by rewrite Hc. }
  pose proof (Happ _ _ Hc) as Hc'. rewrite bool_decide_eq_true_2 in Hc' by done.
  split.
  - intros b o Hb Ho Hd.
    assert (designation_at σ b = Some (designation o)) as Hdb
      by (unfold designation_at; by rewrite Ho).
    assert (neos !! _designation c = Some b) as Hn
      by (rewrite <- Hd; by apply Hkeyed).
    split_and!.
    + by rewrite Hc', Hn.
    + destruct (Hbodies b Hb) as (o1 & Ho1 & Hnil).
      assert (o1 = o) as -> by congruence.
      eexists. split; [by apply Hneo|].
      cbn [approaches set_approaches]. rewrite Hnil, app_nil_l.
      split.
      * apply occurrences_NoDup; [by apply NoDup_filter|].
        apply list_elem_of_filter. split; [congruence|done].
      * apply list_filter_iff. intros e'. unfold target. split.
        -- destruct (event_designation σ e') as [d'|]; [|done]. cbn.
           intros H. apply Hkeyed in H as [_ H']. congruence.
        -- intros ->. cbn. by apply Hkeyed.
    + intros b' o' Hb' Hne Ho' Hmem. rewrite (Hafter _ _ Hb' Ho') in Hmem.
      apply list_elem_of_filter in Hmem as [Hmem _]. congruence.
  - intros Hnone.
    assert (neos !! _designation c = None) as Hn.
    { destruct (neos !! _designation c) as [b|] eqn:E; [|done].
      apply Hkeyed in E as [Hb Hd]. unfold designation_at in Hd.
      destruct (neo_objects σ !! b) as [o|] eqn:Ho; [|done].
      injection Hd as Hd. by destruct (Hnone b o Hb Ho). }
    split; [by rewrite Hc', Hn|].
    intros b o' Hb Ho' Hmem. rewrite (Hafter _ _ Hb Ho') in Hmem.
    apply list_elem_of_filter in Hmem as [Hmem _]. congruence.
Qed.

(** C2: take bodies without approaches yet, the map from each of their
    designations to the body that has it, and events, each given once.
    Calling [assign_neo] on every event in turn raises nothing, and
    afterwards: an event whose designation is the one of a body refers
    to that body, stands exactly once in its approaches, which are the
    events of that designation in the order they were given, and stands
    in the approaches of no other body; an event whose designation no
    body has refers to [None] and stands in the approaches of no body. *)
Theorem C2_linking_pass σ bodies neos events :
  (forall b, b ∈ bodies ->
     exists o, neo_objects σ !! b = Some o /\ approaches o = []) ->
  designation_keyed σ bodies neos ->
  NoDup events ->
  (forall e, e ∈ events -> is_Some (approach_objects σ !! e)) ->
  exists σ',
    for_each (fun e => assign_neo e neos) events σ = (inr (), σ')
    /\ linking_outcome σ bodies events σ'.
Proof. apply assign_neo_all. Qed.

Lemma C2_witness :
  exists σ',
    for_each (fun e => assign_neo e {[ "433" := 0%nat; "2015 AB" := 1%nat ]})
      [0; 1; 2]%nat unlinked_store = (inr (), σ')
    /\ linking_outcome unlinked_store [0; 1]%nat [0; 1; 2]%nat σ'.
Proof.
  apply (C2_linking_pass unlinked_store [0; 1]%nat).
  - intros b Hb. repeat (apply elem_of_cons in Hb as [->|Hb]);
      [eexists; split; reflexivity ..|by apply elem_of_nil in Hb].
  - intros d b.
    rewrite lookup_insert_Some, lookup_singleton_Some, !elem_of_cons, elem_of_nil.
    split.
    + intros [[<- <-]|[_ [<- <-]]]; (split; [tauto|reflexivity]).
    + intros [[->|[->|[]]] [= <-]]; [left|right]; by repeat split.
  - apply (bool_decide_unpack _). vm_compute. reflexivity.
  - intros e He. repeat (apply elem_of_cons in He as [->|He]);
      [eexists; reflexivity ..|by apply elem_of_nil in He].
Defined.

(** The linking pass of the specification has this outcome on bodies
    with distinct designations. *)
Lemma link_run σ bodies events :
  (forall b, b ∈ bodies ->
     exists o, neo_objects σ !! b = Some o /\ approaches o = []) ->
  distinct_designations σ bodies ->
  NoDup events ->
  (forall e, e ∈ events -> is_Some (approach_objects σ !! e)) ->
  exists σ',
    link bodies events σ = (inr (), σ') /\ linking_outcome σ bodies events σ'.
Proof.
  intros Hbodies Hdist Hnodup Hval.
  destruct (index_by_designation_run bodies ∅ σ) as (neos & Hidx & Hin & Hout).
  { intros b Hb. destruct (Hbodies b Hb) as (o & -> & _). eauto. }
  assert (designation_keyed σ bodies neos) as Hkeyed.
  { intros d b. split.
    - intros H. destruct (Hin d b H) as [?|H']; [done|].
      by rewrite lookup_empty in H'.
    - intros [Hb Hd]. apply Hout; [by right|].
      intros b' Hb' Hd'. by apply (Hdist b' b d). }
  destruct (assign_neo_all σ bodies neos events) as (σ' & Hloop & Hout');
    [done..|].
  exists σ'. split; [|done].
  unfold link. by rewrite (bind_inr _ _ _ _ _ Hidx).
Qed.

(** ** Scenarios *)

(** The body of designation 433, read from a row of the catalogue. *)
Example scenario_eros :
  load_neos
    [[("pdes", PyStr "433"); ("name", PyStr "Eros"); ("diameter", PyStr "16.84");
      ("pha", PyStr "N"); ("full_name", PyStr "433 Eros")]] empty_store
  = (inr [0%nat],
     mk_store
       [mk_neo "433" (Some "Eros") (Float.of_decimal false 1684 (-2)) false []
          [("full_name", PyStr "433 Eros")]] []).
Proof. vm_compute. reflexivity. Qed.

(** A body without name and diameter, flagged hazardous. *)
Example scenario_2015_AB :
  NearEarthObject_call
    [("pdes", PyStr "2015 AB"); ("name", PyStr ""); ("diameter", PyStr "");
     ("pha", PyStr "Y")] empty_store
  = (inr 0%nat, mk_store [mk_neo "2015 AB" None S754_nan true [] []] []).
Proof. vm_compute. reflexivity. Qed.

(** The events of the close-approach file, and what a row without a
    velocity raises. *)
Example scenario_load_approaches :
  load_approaches ["des"; "orbit_id"; "cd"; "dist"; "v_rel"]
    [[PyStr "433"; PyStr "659"; PyStr "1900-12-27 01:30"; PyStr "0.0092";
      PyStr "5.58"]] empty_store
  = (inr [0%nat],
     mk_store []
       [mk_approach "433" (helpers.mk_datetime 1900 12 27 1 30 0)
          (Float.of_decimal false 92 (-4)) (Float.of_decimal false 558 (-2)) None
          [("orbit_id", PyStr "659")]]).
Proof. vm_compute. reflexivity. Qed.

Example scenario_missing_arguments :
  CloseApproach_call [("des", PyStr "433"); ("cd", PyStr "1900-12-27 01:30")]
    empty_store
  = (inl (TypeError
            "CloseApproach.__init__() missing 2 required positional arguments: 'dist' and 'v_rel'"),
     empty_store).
Proof. vm_compute. reflexivity. Qed.

(** Linking two bodies and three events, one of an unknown object. *)
Example scenario_link :
  link [0; 1]%nat [0; 1; 2]%nat unlinked_store
  = (inr (),
     mk_store
       [set_approaches [0; 2]%nat eros;
        mk_neo "2015 AB" None S754_nan true [] []]
       [eros_approach;
        mk_approach "unknown-object" (helpers.mk_datetime 2000 2 29 23 59 0)
          (S754_zero false) (Float.of_decimal false 3 0) None [];
        mk_approach "433" (helpers.mk_datetime 1931 1 30 4 7 0)
          (Float.of_decimal false 174 (-3)) (Float.of_decimal false 59 (-1))
          (Some 0%nat) []]).
Proof. vm_compute. reflexivity. Qed.

(** The renderings of the linked objects. *)
Example scenario_str :
  (a ← NearEarthObject_str 0%nat; b ← NearEarthObject_repr 0%nat;
   c ← CloseApproach_str 0%nat; d ← CloseApproach_repr 0%nat;
   mret [a; b; c; d]) eros_store
  = (inr ["NEO '433 (Eros)' has a diameter of 16.840 km and is not potentially hazardous.";
          "NearEarthObject(designation='433', name='Eros', diameter=16.840, hazardous=False)";
          "At 1900-12-27 01:30, '433 (Eros)' approaches Earth at a distance of 0.01 au and a velocity of 5.58 km/s.";
          "CloseApproach(time='1900-12-27 01:30', distance=0.01, velocity=5.58, neo=NearEarthObject(designation='433', name='Eros', diameter=16.840, hazardous=False))"],
     eros_store).
Proof. vm_compute. reflexivity. Qed.

(** Serializing an event that is not linked. *)
Example scenario_unlinked_serialize :
  serialize 1%nat (PyStr "csv") unlinked_store
  = (inl (AttributeError "'NoneType' object has no attribute 'name'"),
     unlinked_store).
Proof. vm_compute. reflexivity. Qed.

(** * Further properties of the code *)

(** ** Methods that only read *)

Lemma reads_ret {A} (x : A) : reads_only (mret x).
Proof. by intros σ. Qed.

Lemma reads_raise {A} (e : exn) : reads_only (raise (A := A) e).
Proof. by intros σ. Qed.

Lemma reads_lift {A} (r : exn + A) : reads_only (lift r).
Proof. by intros σ. Qed.

Lemma reads_bind {A B} (m : M A) (f : A -> M B) :
  reads_only m -> (forall x, reads_only (f x)) -> reads_only (m ≫= f).
Proof.
  intros Hm Hf σ. unfold mbind, M_bind. specialize (Hm σ).
  destruct (m σ) as [[e|x] σ']; cbn in Hm; subst σ'; [done|]. apply Hf.
Qed.

Lemma reads_load_neo a : reads_only (load_neo a).
Proof. intros σ. unfold load_neo. by destruct (_ !! a). Qed.

Lemma reads_load_approach a : reads_only (load_approach a).
Proof. intros σ. unfold load_approach. by destruct (_ !! a). Qed.

Ltac reads :=
  repeat first
    [ assumption
    | simple apply reads_bind; [|intros ?]
    | simple apply reads_ret
    | simple apply reads_raise
    | simple apply reads_lift
    | simple apply reads_load_neo
    | simple apply reads_load_approach
    | match goal with
      | H : forall x, reads_only (?f x) |- reads_only (?f _) => simple apply H
      | |- reads_only (match ?x with _ => _ end) => destruct x
      | |- reads_only (if ?x then _ else _) => destruct x
      end ].

Lemma reads_time_str e : reads_only (time_str e).
Proof. unfold time_str. reads. Qed.

Lemma reads_fullname b : reads_only (fullname b).
Proof. unfold fullname. reads. Qed.

Lemma reads_NearEarthObject_repr b : reads_only (NearEarthObject_repr b).
Proof. unfold NearEarthObject_repr. reads. Qed.

(** X1: the properties [fullname] and [time_str], the renderings
    [__str__] and [__repr__] of both classes and [serialize] leave the
    store exactly as it was, on every object and argument, whether they
    return or raise. *)
Theorem X1_methods_read_only σ b e extension :
  (fullname b σ).2 = σ
  /\ (NearEarthObject_str b σ).2 = σ
  /\ (NearEarthObject_repr b σ).2 = σ
  /\ (time_str e σ).2 = σ
  /\ (CloseApproach_str e σ).2 = σ
  /\ (CloseApproach_repr e σ).2 = σ
  /\ (serialize e extension σ).2 = σ.
Proof.
  pose proof reads_fullname. pose proof reads_time_str.
  pose proof reads_NearEarthObject_repr.
  split_and!.
  - by apply reads_fullname.
  - revert σ. change (reads_only (NearEarthObject_str b)).
    unfold NearEarthObject_str. reads.
  - by apply reads_NearEarthObject_repr.
  - by apply reads_time_str.
  - revert σ. change (reads_only (CloseApproach_str e)).
    unfold CloseApproach_str. reads.
  - revert σ. change (reads_only (CloseApproach_repr e)).
    unfold CloseApproach_repr. reads.
  - revert σ. change (reads_only (serialize e extension)).
    unfold serialize, load_neo_of. reads.
Qed.

(** ** Renderings *)

Lemma append_assoc (a b c : string) : (a +:+ b) +:+ c = a +:+ (b +:+ c).
Proof.
  induction a as [|x a IH]; [done|].
  change (String x ((a +:+ b) +:+ c) = String x (a +:+ (b +:+ c))).
  by rewrite IH.
Qed.

Lemma eqb_self_nan x : Float.eqb x x = false <-> x = S754_nan.
Proof.
  unfold Float.eqb, SFeqb. destruct x as [[]|[]| |[] m e]; cbn; try done.
  all: rewrite Z.compare_refl, Pos.compare_cont_refl; done.
Qed.

Lemma fullname_run σ b o :
  neo_objects σ !! b = Some o -> fullname b σ = (inr (fullname_of o), σ).
Proof.
  intros Ho. unfold fullname.
  by rewrite (bind_inr _ _ _ _ _ (load_neo_Some _ _ _ Ho)).
Qed.

Lemma NearEarthObject_repr_run σ b o :
  neo_objects σ !! b = Some o ->
  NearEarthObject_repr b σ =
    (inr ("NearEarthObject(designation=" +:+ Py.repr_str (designation o)
            +:+ ", name=" +:+ Py.repr (optional_str (name o))
            +:+ ", diameter=" +:+ Float.format_fixed 3 (diameter o)
            +:+ ", hazardous=" +:+ Py.repr (PyBool (hazardous o)) +:+ ")"), σ).
Proof.
  intros Ho. unfold NearEarthObject_repr.
  by rewrite (bind_inr _ _ _ _ _ (load_neo_Some _ _ _ Ho)).
Qed.

(** X2: [NearEarthObject.__str__] returns on every object, and it
    speaks of the diameter exactly when the diameter is a number: for
    the not-a-number of an unknown diameter the sentence goes from the
    name straight to the hazard. *)
Theorem X2_str_skips_unknown_diameter σ b o :
  neo_objects σ !! b = Some o ->
  let hazard :=
    if hazardous o then " is potentially hazardous."
    else " is not potentially hazardous." in
  (diameter o = S754_nan ->
   NearEarthObject_str b σ
   = (inr ("NEO " +:+ Py.repr_str (fullname_of o) +:+ hazard), σ))
  /\ (diameter o <> S754_nan ->
      NearEarthObject_str b σ
      = (inr ("NEO " +:+ Py.repr_str (fullname_of o) +:+ " has a diameter of "
                +:+ Float.format_fixed 3 (diameter o) +:+ " km and" +:+ hazard), σ)).
Proof.
  intros Ho hazard. unfold NearEarthObject_str.
  rewrite (bind_inr _ _ _ _ _ (load_neo_Some _ _ _ Ho)).
  rewrite (bind_inr _ _ _ _ _ (fullname_run _ _ _ Ho)).
  split; intros Hd.
  - apply eqb_self_nan in Hd. rewrite Hd. subst hazard.
    by destruct (hazardous o).
  - destruct (Float.eqb (diameter o) (diameter o)) eqn:E;
      [|by apply eqb_self_nan in E].
    subst hazard. cbn [mret M_ret].
    destruct (hazardous o); by rewrite !append_assoc.
Qed.

Lemma X2_witness :
  NearEarthObject_str 1%nat unlinked_store
  = (inr "NEO '2015 AB' is potentially hazardous.", unlinked_store).
Proof.
  apply (X2_str_skips_unknown_diameter unlinked_store 1%nat
           (mk_neo "2015 AB" None S754_nan true [] [])); reflexivity.
Defined.

(** X3: the full name of an object just constructed is its designation
    when the name input coerces to the empty string, and otherwise the
    designation followed by the coerced name in parentheses. *)
Theorem X3_fullname_of_new_object pdes nm diam pha extra σ a σ' :
  NearEarthObject_init pdes nm diam pha extra σ = (inr a, σ') ->
  let n := Py.str (default (PyStr "") nm) in
  fullname a σ'
  = (inr (if String.eqb n "" then Py.str pdes
          else Py.str pdes +:+ " (" +:+ n +:+ ")"), σ').
Proof.
  intros Hrun n.
  apply NearEarthObject_init_inv in Hrun as (d & _ & -> & _ & E).
  erewrite fullname_run; [|by rewrite E, lookup_new].
  unfold fullname_of, name_of_input. cbn [name designation]. fold n.
  destruct (String.eqb_spec n "") as [Hn|Hn]; [done|].
  cbn [optional_str Py.truthy Py.str].
  by destruct (String.eqb_spec n "").
Qed.

Lemma X3_witness :
  fullname 0%nat
    (NearEarthObject_init (PyStr "433") (Some (PyStr "Eros")) None None []
       empty_store).2
  = (inr "433 (Eros)",
     (NearEarthObject_init (PyStr "433") (Some (PyStr "Eros")) None None []
        empty_store).2).
Proof.
  apply (X3_fullname_of_new_object (PyStr "433") (Some (PyStr "Eros")) None None []
           empty_store 0%nat).
  vm_compute. reflexivity.
Defined.

(** X4: on a close approach that is not linked, [serialize] raises
    [AttributeError] whatever shape is asked for, recognized or not,
    while [__str__] and [__repr__] return: the first falls back on the
    designation the event was constructed with, the second shows
    [neo=None]. *)
Theorem X4_unlinked_event σ e c extension :
  approach_objects σ !! e = Some c -> neo c = None ->
  serialize e extension σ
  = (inl (AttributeError "'NoneType' object has no attribute 'name'"), σ)
  /\ CloseApproach_str e σ
     = (inr ("At " +:+ helpers.datetime_to_str (time c) +:+ ", "
               +:+ Py.repr_str (_designation c) +:+ approach_tail c), σ)
  /\ CloseApproach_repr e σ
     = (inr ("CloseApproach(time=" +:+ Py.repr_str (helpers.datetime_to_str (time c))
               +:+ ", distance=" +:+ Float.format_fixed 2 (distance c)
               +:+ ", velocity=" +:+ Float.format_fixed 2 (velocity c)
               +:+ ", neo=None)"), σ).
Proof.
  intros Hc Hn. split_and!.
  - unfold serialize.
    rewrite (bind_inr _ _ _ _ _ (load_approach_Some _ _ _ Hc)).
    unfold load_neo_of. by rewrite Hn.
  - unfold CloseApproach_str.
    rewrite (bind_inr _ _ _ _ _ (load_approach_Some _ _ _ Hc)).
    rewrite (bind_inr _ _ _ _ _ (time_str_run _ _ _ Hc)), Hn.
    erewrite (bind_inr (mret _)); [|reflexivity].
    unfold approach_tail. by rewrite !append_assoc.
  - unfold CloseApproach_repr.
    rewrite (bind_inr _ _ _ _ _ (load_approach_Some _ _ _ Hc)).
    by rewrite (bind_inr _ _ _ _ _ (time_str_run _ _ _ Hc)), Hn.
Qed.

Lemma X4_witness :
  serialize 1%nat (PyStr "xml") unlinked_store
  = (inl (AttributeError "'NoneType' object has no attribute 'name'"),
     unlinked_store)
  /\ CloseApproach_str 1%nat unlinked_store
     = (inr "At 2000-02-29 23:59, 'unknown-object' approaches Earth at a distance of 0.00 au and a velocity of 3.00 km/s.",
        unlinked_store)
  /\ CloseApproach_repr 1%nat unlinked_store
     = (inr "CloseApproach(time='2000-02-29 23:59', distance=0.00, velocity=3.00, neo=None)",
        unlinked_store).
Proof.
  apply (X4_unlinked_event unlinked_store 1%nat
           (mk_approach "unknown-object" (helpers.mk_datetime 2000 2 29 23 59 0)
              (S754_zero false) (Float.of_decimal false 3 0) None [])
           (PyStr "xml")); reflexivity.
Defined.

(** X5: on a linked close approach, [__str__] names the object by its
    full name, and [__repr__] embeds the [__repr__] of the object. *)
Theorem X5_linked_event σ e c o :
  linked σ e c o ->
  CloseApproach_str e σ
  = (inr ("At " +:+ helpers.datetime_to_str (time c) +:+ ", "
            +:+ Py.repr_str (fullname_of o) +:+ approach_tail c), σ)
  /\ exists r,
       (forall b, neo c = Some b -> NearEarthObject_repr b σ = (inr r, σ))
       /\ CloseApproach_repr e σ
          = (inr ("CloseApproach(time="
                    +:+ Py.repr_str (helpers.datetime_to_str (time c))
                    +:+ ", distance=" +:+ Float.format_fixed 2 (distance c)
                    +:+ ", velocity=" +:+ Float.format_fixed 2 (velocity c)
                    +:+ ", neo=" +:+ r +:+ ")"), σ).
Proof.
  intros (Hc & b & Hb & Ho). split.
  - unfold CloseApproach_str.
    rewrite (bind_inr _ _ _ _ _ (load_approach_Some _ _ _ Hc)).
    rewrite (bind_inr _ _ _ _ _ (time_str_run _ _ _ Hc)), Hb.
    erewrite (bind_inr (fullname b ≫= _));
      [|by rewrite (bind_inr _ _ _ _ _ (fullname_run _ _ _ Ho))].
    unfold approach_tail. by rewrite !append_assoc.
  - eexists. split.
    + intros b' Hb'. rewrite Hb in Hb'. injection Hb' as <-.
      by apply NearEarthObject_repr_run.
    + unfold CloseApproach_repr.
      rewrite (bind_inr _ _ _ _ _ (load_approach_Some _ _ _ Hc)).
      rewrite (bind_inr _ _ _ _ _ (time_str_run _ _ _ Hc)), Hb.
      by rewrite (bind_inr _ _ _ _ _ (NearEarthObject_repr_run _ _ _ Ho)).
Qed.

Lemma X5_witness :
  CloseApproach_str 0%nat eros_store
  = (inr "At 1900-12-27 01:30, '433 (Eros)' approaches Earth at a distance of 0.01 au and a velocity of 5.58 km/s.",
     eros_store).
Proof.
  apply (X5_linked_event eros_store 0%nat eros_approach eros).
  split; [reflexivity|]. exists 0%nat. split; reflexivity.
Defined.

(** ** The two shapes of [serialize] *)

(** X6: on a linked close approach the two shapes agree: the mapping
    for ['csv'] has the keys of the mapping for ['json'], those under
    ['neo'] put after the first three, in the same order, and each of
    its values is [str] of the value the other holds. *)
Theorem X6_csv_is_json_flattened σ e c o :
  linked σ e c o ->
  exists flat top nested,
    serialize e (PyStr "csv") σ = (inr (PyDict flat), σ)
    /\ serialize e (PyStr "json") σ = (inr (PyDict top), σ)
    /\ dict_get "neo" top = Some (PyDict nested)
    /\ keys top = take 3 (keys flat) ++ ["neo"]
    /\ keys nested = drop 3 (keys flat)
    /\ map snd flat
       = map (fun v => PyStr (Py.str v)) (take 3 (map snd top) ++ map snd nested).
Proof.
  intros H. rewrite !(serialize_run _ _ _ _ _ H). unfold serialized.
  cbn [Py.eq_str String.eqb Ascii.eqb Bool.eqb].
  do 3 eexists. split_and!; reflexivity.
Qed.

Lemma X6_witness :
  exists flat top nested,
    serialize 0%nat (PyStr "csv") eros_store = (inr (PyDict flat), eros_store)
    /\ serialize 0%nat (PyStr "json") eros_store = (inr (PyDict top), eros_store)
    /\ dict_get "neo" top = Some (PyDict nested)
    /\ keys top = take 3 (keys flat) ++ ["neo"]
    /\ keys nested = drop 3 (keys flat)
    /\ map snd flat
       = map (fun v => PyStr (Py.str v)) (take 3 (map snd top) ++ map snd nested).
Proof.
  apply (X6_csv_is_json_flattened eros_store 0%nat eros_approach eros).
  split; [reflexivity|]. exists 0%nat. split; reflexivity.
Defined.

(** ** [assign_neo] *)

(** X7: what one call of [assign_neo] changes.  On a miss it returns
    the event, sets its [neo] to [None] and touches nothing else.  On a
    hit it returns the event, sets its [neo] to the body found and
    appends the event to the approaches of that body; every other
    object, and every other attribute of these two, is as before. *)
Theorem X7_assign_neo_effect σ e c neos :
  approach_objects σ !! e = Some c -> keyed σ neos ->
  (neos !! _designation c = None ->
   assign_neo e neos σ
   = (inr e, mk_store (neo_objects σ)
               (<[e := set_neo None c]> (approach_objects σ))))
  /\ (forall b, neos !! _designation c = Some b ->
      exists o,
        neo_objects σ !! b = Some o
        /\ assign_neo e neos σ
           = (inr e,
              mk_store
                (<[b := set_approaches (approaches o ++ [e]) o]> (neo_objects σ))
                (<[e := set_neo (Some b) c]> (approach_objects σ)))).
Proof.
  intros Hc Hkey. unfold assign_neo.
  rewrite (bind_inr _ _ _ _ _ (load_approach_Some _ _ _ Hc)).
  pose proof (lookup_lt_Some _ _ _ Hc) as Hlt.
  split.
  - intros ->. erewrite bind_inr; [reflexivity|]. unfold update_approach.
    by rewrite (bind_inr _ _ _ _ _ (load_approach_Some _ _ _ Hc)).
  - intros b Hn. rewrite Hn.
    destruct (Hkey _ _ Hn) as (o & Ho & _). exists o. split; [done|].
    set (σ1 := store_approach e (set_neo (Some b) c) σ).
    assert (update_approach e (set_neo (Some b)) σ = (inr (), σ1)) as H1.
    { unfold update_approach.
      by rewrite (bind_inr _ _ _ _ _ (load_approach_Some _ _ _ Hc)). }
    assert (approach_objects σ1 !! e = Some (set_neo (Some b) c)) as Hc1
      by (by apply list_lookup_insert_eq).
    erewrite bind_inr; [reflexivity|].
    rewrite (bind_inr _ _ _ _ _ H1).
    rewrite (bind_inr _ _ _ _ _ (load_approach_Some _ _ _ Hc1)).
    cbn [neo set_neo]. unfold update_neo.
    by rewrite (bind_inr _ _ _ _ _ (load_neo_Some b o σ1 Ho)).
Qed.

Lemma X7_witness :
  assign_neo 1%nat {[ "433" := 0%nat ]} unlinked_store
  = (inr 1%nat,
     mk_store (neo_objects unlinked_store)
       (<[1%nat := set_neo None
             (mk_approach "unknown-object" (helpers.mk_datetime 2000 2 29 23 59 0)
                (S754_zero false) (Float.of_decimal false 3 0) None [])]>
          (approach_objects unlinked_store))).
Proof.
  apply (X7_assign_neo_effect unlinked_store 1%nat
           (mk_approach "unknown-object" (helpers.mk_datetime 2000 2 29 23 59 0)
              (S754_zero false) (Float.of_decimal false 3 0) None [])
           {[ "433" := 0%nat ]}).
  - reflexivity.
  - intros d b. rewrite lookup_singleton_Some. intros [<- <-].
    eexists. split; reflexivity.
  - vm_compute. reflexivity.
Defined.

(** X8: [assign_neo] does not look whether the event is already in the
    approaches of the body: calling it twice with a map that finds the
    body appends the event twice. *)
Theorem X8_assign_neo_twice σ e c neos b o :
  approach_objects σ !! e = Some c -> keyed σ neos ->
  neos !! _designation c = Some b -> neo_objects σ !! b = Some o ->
  exists σ1 σ2 o2,
    assign_neo e neos σ = (inr e, σ1)
    /\ assign_neo e neos σ1 = (inr e, σ2)
    /\ neo_objects σ2 !! b = Some o2
    /\ approaches o2 = approaches o ++ [e; e].
Proof.
  intros Hc Hkey Hn Ho.
  destruct (assign_neo_run σ e c neos Hc Hkey) as (σ1 & Hrun1 & Happ1 & Hneo1 & _).
  pose proof (Happ1 _ _ Hc) as Hc1. rewrite bool_decide_eq_true_2 in Hc1 by done.
  assert (keyed σ1 neos) as Hkey1.
  { intros d b' Hd. destruct (Hkey d b' Hd) as (o' & Ho' & <-).
    eexists. split; [by apply Hneo1|]. by case_bool_decide. }
  destruct (assign_neo_run σ1 e _ neos Hc1 Hkey1) as (σ2 & Hrun2 & _ & Hneo2 & _).
  pose proof (Hneo1 _ _ Ho) as Ho1. rewrite bool_decide_eq_true_2 in Ho1 by done.
  pose proof (Hneo2 _ _ Ho1) as Ho2. cbn [_designation set_neo] in Ho2.
  rewrite bool_decide_eq_true_2 in Ho2 by done.
  exists σ1, σ2. eexists. split_and!; [done..|].
  cbn [approaches set_approaches]. by rewrite <- app_assoc.
Qed.

Lemma X8_witness :
  exists σ1 σ2 o2,
    assign_neo 0%nat {[ "433" := 0%nat ]} unlinked_store = (inr 0%nat, σ1)
    /\ assign_neo 0%nat {[ "433" := 0%nat ]} σ1 = (inr 0%nat, σ2)
    /\ neo_objects σ2 !! 0%nat = Some o2
    /\ approaches o2 = approaches (set_approaches [] eros) ++ [0; 0]%nat.
Proof.
  apply (X8_assign_neo_twice unlinked_store 0%nat (set_neo None eros_approach)
           {[ "433" := 0%nat ]} 0%nat (set_approaches [] eros)).
  - reflexivity.
  - intros d b. rewrite lookup_singleton_Some. intros [<- <-].
    eexists. split; reflexivity.
  - vm_compute. reflexivity.
  - reflexivity.
Defined.

Lemma assign_neo_miss σ e c neos :
  approach_objects σ !! e = Some c -> neos !! _designation c = None ->
  assign_neo e neos σ
  = (inr e, mk_store (neo_objects σ) (<[e := set_neo None c]> (approach_objects σ))).
Proof.
  intros Hc Hn. unfold assign_neo.
  rewrite (bind_inr _ _ _ _ _ (load_approach_Some _ _ _ Hc)), Hn.
  erewrite bind_inr; [reflexivity|]. unfold update_approach.
  by rewrite (bind_inr _ _ _ _ _ (load_approach_Some _ _ _ Hc)).
Qed.

(** X9: a miss does not undo an earlier link.  If the event stands in
    the approaches of a body and [assign_neo] is called with a map
    that lacks its designation, the event refers to [None] afterwards
    and still stands in the approaches of that body. *)
Theorem X9_miss_leaves_stale_entry σ e c neos b o :
  approach_objects σ !! e = Some c -> neos !! _designation c = None ->
  neo_objects σ !! b = Some o -> e ∈ approaches o ->
  exists σ' c',
    assign_neo e neos σ = (inr e, σ')
    /\ approach_objects σ' !! e = Some c' /\ neo c' = None
    /\ neo_objects σ' !! b = Some o.
Proof.
  intros Hc Hn Ho He. do 2 eexists. split; [by apply assign_neo_miss|].
  cbn [approach_objects neo_objects]. split.
  { apply list_lookup_insert_eq. by eapply lookup_lt_Some. }
  by split.
Qed.

Lemma X9_witness :
  exists σ' c',
    assign_neo 0%nat ∅ eros_store = (inr 0%nat, σ')
    /\ approach_objects σ' !! 0%nat = Some c' /\ neo c' = None
    /\ neo_objects σ' !! 0%nat = Some eros.
Proof.
  apply (X9_miss_leaves_stale_entry eros_store 0%nat eros_approach ∅ 0%nat eros).
  - reflexivity.
  - reflexivity.
  - reflexivity.
  - vm_compute. left.
Defined.

(** ** Links in both directions *)

Lemma sizes_ret {A} (x : A) : keeps_sizes (mret x).
Proof. by intros σ. Qed.

Lemma sizes_raise {A} (e : exn) : keeps_sizes (raise (A := A) e).
Proof. by intros σ. Qed.

Lemma sizes_bind {A B} (m : M A) (f : A -> M B) :
  keeps_sizes m -> (forall x, keeps_sizes (f x)) -> keeps_sizes (m ≫= f).
Proof.
  intros Hm Hf σ. unfold mbind, M_bind. specialize (Hm σ).
  destruct (m σ) as [[e|x] σ']; [done|]. cbn in Hm.
  destruct (Hf x σ') as [H1 H2]. destruct Hm as [H3 H4]. split; congruence.
Qed.

Lemma sizes_load_neo a : keeps_sizes (load_neo a).
Proof. intros σ. unfold load_neo. by destruct (_ !! a). Qed.

Lemma sizes_load_approach a : keeps_sizes (load_approach a).
Proof. intros σ. unfold load_approach. by destruct (_ !! a). Qed.

Lemma sizes_update_neo a f : keeps_sizes (update_neo a f).
Proof.
  apply sizes_bind; [apply sizes_load_neo|]. intros o σ. cbn.
  by rewrite length_insert.
Qed.

Lemma sizes_update_approach a f : keeps_sizes (update_approach a f).
Proof.
  apply sizes_bind; [apply sizes_load_approach|]. intros c σ. cbn.
  by rewrite length_insert.
Qed.

Lemma sizes_assign_neo e neos : keeps_sizes (assign_neo e neos).
Proof.
  unfold assign_neo.
  repeat first
    [ simple apply sizes_bind; [|intros ?]
    | simple apply sizes_ret
    | simple apply sizes_raise
    | simple apply sizes_load_approach
    | simple apply sizes_update_approach
    | simple apply sizes_update_neo
    | match goal with
      | |- keeps_sizes (match ?x with _ => _ end) => destruct x
      end ].
Qed.

Lemma sizes_for_each {A B} (f : A -> M B) l :
  (forall x, keeps_sizes (f x)) -> keeps_sizes (for_each f l).
Proof.
  intros Hf. induction l as [|x l IH]; [apply sizes_ret|].
  cbn [for_each]. apply sizes_bind; [apply Hf|]. by intros _.
Qed.

(** The objects of the store after the loop are those before it, with
    the changes the loop makes. *)
Lemma for_each_assign_neo_inv neos es σ σ' :
  keyed σ neos ->
  (forall e, e ∈ es -> is_Some (approach_objects σ !! e)) ->
  for_each (fun e => assign_neo e neos) es σ = (inr (), σ') ->
  (forall e c', approach_objects σ' !! e = Some c' ->
     exists c, approach_objects σ !! e = Some c
       /\ c' = if bool_decide (e ∈ es)
               then set_neo (neos !! _designation c) c else c)
  /\ (forall b o', neo_objects σ' !! b = Some o' ->
        exists o, neo_objects σ !! b = Some o
          /\ o' = set_approaches
                    (approaches o ++ filter (fun e => target neos σ e = Some b) es) o).
Proof.
  intros Hkey Hval Hrun.
  destruct (for_each_assign_neo neos es σ Hkey Hval) as (σ'' & Hrun' & Happ & Hneo).
  rewrite Hrun in Hrun'. injection Hrun' as <-.
  destruct (sizes_for_each (fun e => assign_neo e neos) es
              (fun e => sizes_assign_neo e neos) σ) as [Hs1 Hs2].
  rewrite Hrun in Hs1, Hs2. cbn in Hs1, Hs2.
  split.
  - intros e c' Hc'.
    destruct (lookup_lt_is_Some_2 (approach_objects σ) e) as [c Hc].
    { rewrite <- Hs2. by eapply lookup_lt_Some. }
    exists c. split; [done|]. rewrite (Happ _ _ Hc) in Hc'. by injection Hc'.
  - intros b o' Ho'.
    destruct (lookup_lt_is_Some_2 (neo_objects σ) b) as [o Ho].
    { rewrite <- Hs1. by eapply lookup_lt_Some. }
    exists o. split; [done|]. rewrite (Hneo _ _ Ho) in Ho'. by injection Ho'.
Qed.

(** X10: calling [assign_neo] on a list of events keeps the link from
    event to body sound: if beforehand every event that refers to a
    body stood in the approaches of that body, the same holds
    afterwards, for the events of the list and for all others. *)
Theorem X10_forward_refs_kept neos es σ σ' :
  keyed σ neos ->
  (forall e, e ∈ es -> is_Some (approach_objects σ !! e)) ->
  forward_refs σ ->
  for_each (fun e => assign_neo e neos) es σ = (inr (), σ') ->
  forward_refs σ'.
Proof.
  intros Hkey Hval Hfwd Hrun.
  destruct (for_each_assign_neo neos es σ Hkey Hval) as (σ'' & Hrun' & _ & Hneo).
  rewrite Hrun in Hrun'. injection Hrun' as <-.
  destruct (for_each_assign_neo_inv neos es σ σ' Hkey Hval Hrun) as [Happ _].
  intros e c' b Hc' Hb.
  destruct (Happ _ _ Hc') as (c & Hc & ->).
  case_bool_decide as He.
  - cbn [neo set_neo] in Hb. destruct (Hkey _ _ Hb) as (o & Ho & _).
    eexists. split; [by apply Hneo|]. cbn [approaches set_approaches].
    apply elem_of_app. right. apply list_elem_of_filter. split; [|done].
    unfold target, event_designation. by rewrite Hc.
  - destruct (Hfwd _ _ _ Hc Hb) as (o & Ho & Hin).
    eexists. split; [by apply Hneo|]. cbn [approaches set_approaches].
    apply elem_of_app. by left.
Qed.

(** X11: it keeps the link from body to event sound as well, provided
    the events of the list stand in no approaches yet: if beforehand
    every event in the approaches of a body referred to that body, the
    same holds afterwards. *)
Theorem X11_back_refs_kept neos es σ σ' :
  keyed σ neos ->
  (forall e, e ∈ es -> is_Some (approach_objects σ !! e)) ->
  (forall e, e ∈ es -> unlisted σ e) ->
  back_refs σ ->
  for_each (fun e => assign_neo e neos) es σ = (inr (), σ') ->
  back_refs σ'.
Proof.
  intros Hkey Hval Hnew Hback Hrun.
  destruct (for_each_assign_neo neos es σ Hkey Hval) as (σ'' & Hrun' & Happ & _).
  rewrite Hrun in Hrun'. injection Hrun' as <-.
  destruct (for_each_assign_neo_inv neos es σ σ' Hkey Hval Hrun) as [_ Hneo].
  intros b o' e Ho' He.
  destruct (Hneo _ _ Ho') as (o & Ho & ->). cbn [approaches set_approaches] in He.
  apply elem_of_app in He as [He|He].
  - destruct (Hback _ _ _ Ho He) as (c & Hc & Hb).
    exists c. split; [|done]. rewrite (Happ _ _ Hc).
    rewrite bool_decide_eq_false_2; [done|].
    intros Hes. by apply (Hnew e Hes b o).
  - apply list_elem_of_filter in He as [Ht Hes].
    destruct (Hval e Hes) as [c Hc].
    eexists. split; [by apply Happ|].
    rewrite bool_decide_eq_true_2 by done. cbn [neo set_neo].
    unfold target, event_designation in Ht. by rewrite Hc in Ht.
Qed.

Lemma unlinked_store_keyed :
  keyed unlinked_store {[ "433" := 0%nat; "2015 AB" := 1%nat ]}.
Proof.
  intros d b. rewrite lookup_insert_Some, lookup_singleton_Some.
  intros [[<- <-]|[_ [<- <-]]]; eexists; split; reflexivity.
Defined.

Lemma unlinked_store_valid e :
  e ∈ [0; 1; 2]%nat -> is_Some (approach_objects unlinked_store !! e).
Proof.
  intros He. repeat (apply elem_of_cons in He as [->|He]);
    [eexists; reflexivity ..|by apply elem_of_nil in He].
Defined.

Lemma X10_witness :
  forward_refs
    (for_each (fun e => assign_neo e {[ "433" := 0%nat; "2015 AB" := 1%nat ]})
       [0; 1; 2]%nat unlinked_store).2.
Proof.
  apply (X10_forward_refs_kept {[ "433" := 0%nat; "2015 AB" := 1%nat ]}
           [0; 1; 2]%nat unlinked_store).
  - exact unlinked_store_keyed.
  - exact unlinked_store_valid.
  - intros [|[|[|e]]] c b Hc Hb; cbn in Hc; simplify_eq; discriminate Hb.
  - vm_compute. reflexivity.
Defined.

Lemma X11_witness :
  back_refs
    (for_each (fun e => assign_neo e {[ "433" := 0%nat; "2015 AB" := 1%nat ]})
       [0; 1; 2]%nat unlinked_store).2.
Proof.
  apply (X11_back_refs_kept {[ "433" := 0%nat; "2015 AB" := 1%nat ]}
           [0; 1; 2]%nat unlinked_store).
  - exact unlinked_store_keyed.
  - exact unlinked_store_valid.
  - intros e _ [|[|b]] o Ho He; cbn in Ho; simplify_eq; by apply elem_of_nil in He.
  - intros [|[|b]] o e Ho He; cbn in Ho; simplify_eq; by apply elem_of_nil in He.
  - vm_compute. reflexivity.
Defined.

(** ** Construction *)

(** X12: [NearEarthObject.__init__] either raises what [float] raises
    on the diameter and leaves the store as it was, or adds one object
    at a fresh address, with no approaches and with the extra keyword
    arguments as its [extra_information], and changes no object that
    was there. *)
Theorem X12_new_NearEarthObject pdes nm diam pha extra σ r σ' :
  NearEarthObject_init pdes nm diam pha extra σ = (r, σ') ->
  match r with
  | inl err => σ' = σ /\ Py.float (diameter_input diam) = inl err
  | inr a =>
      a = length (neo_objects σ)
      /\ approach_objects σ' = approach_objects σ
      /\ length (neo_objects σ') = S (length (neo_objects σ))
      /\ (forall b o, neo_objects σ !! b = Some o -> neo_objects σ' !! b = Some o)
      /\ exists o, neo_objects σ' !! a = Some o
           /\ approaches o = [] /\ extra_information o = extra
  end.
Proof.
  rewrite NearEarthObject_init_run.
  destruct (Py.float (diameter_input diam)) as [err|d]; intros [= <- <-]; [done|].
  cbn [neo_objects approach_objects]. split_and!; [done|done| | |].
  - rewrite length_app. cbn. lia.
  - intros b o Ho. by apply lookup_app_l_Some.
  - eexists. split; [apply lookup_new|]. done.
Qed.

Lemma X12_witness :
  0%nat = length (neo_objects empty_store)
  /\ approach_objects (mk_store [set_approaches [] eros] []) = approach_objects empty_store
  /\ length (neo_objects (mk_store [set_approaches [] eros] []))
     = S (length (neo_objects empty_store))
  /\ (forall b o, neo_objects empty_store !! b = Some o ->
        neo_objects (mk_store [set_approaches [] eros] []) !! b = Some o)
  /\ exists o, neo_objects (mk_store [set_approaches [] eros] []) !! 0%nat = Some o
       /\ approaches o = [] /\ extra_information o = [].
Proof.
  apply (X12_new_NearEarthObject (PyStr "433") (Some (PyStr "Eros"))
           (Some (PyStr "16.84")) (Some (PyStr "N")) [] empty_store (inr 0%nat)).
  vm_compute. reflexivity.
Defined.

(** X13: [CloseApproach.__init__] either raises and leaves the store as
    it was (the error of the date first, then of the distance, then of
    the velocity), or adds one event at a fresh address, which keeps
    the designation as a string, refers to no object yet, and has the
    floats of the distance and the velocity; no object that was there
    changes. *)
Theorem X13_new_CloseApproach des cd dist v_rel extra σ r σ' :
  CloseApproach_init des cd dist v_rel extra σ = (r, σ') ->
  match r with
  | inl err =>
      σ' = σ
      /\ (helpers.cd_to_datetime cd = inl err
          \/ (exists t, helpers.cd_to_datetime cd = inr t)
             /\ (Py.float dist = inl err
                 \/ (exists d, Py.float dist = inr d) /\ Py.float v_rel = inl err))
  | inr a =>
      a = length (approach_objects σ)
      /\ neo_objects σ' = neo_objects σ
      /\ length (approach_objects σ') = S (length (approach_objects σ))
      /\ (forall e c, approach_objects σ !! e = Some c ->
            approach_objects σ' !! e = Some c)
      /\ exists c, approach_objects σ' !! a = Some c
           /\ _designation c = Py.str des /\ neo c = None
           /\ helpers.cd_to_datetime cd = inr (time c)
           /\ Py.float dist = inr (distance c)
           /\ Py.float v_rel = inr (velocity c)
           /\ approach_extra_information c = extra
  end.
Proof.
  unfold CloseApproach_init, mbind, M_bind, lift, new_approach.
  destruct (helpers.cd_to_datetime cd) as [e1|t]; [intros [= <- <-]; eauto|].
  destruct (Py.float dist) as [e2|d]; [intros [= <- <-]; eauto 8|].
  destruct (Py.float v_rel) as [e3|v]; [intros [= <- <-]; eauto 10|].
  intros [= <- <-]. cbn [neo_objects approach_objects]. split_and!; [done|done| | |].
  - rewrite length_app. cbn. lia.
  - intros e c Hc. by apply lookup_app_l_Some.
  - eexists. split; [apply lookup_new|]. done.
Qed.

Lemma X13_witness :
  0%nat = length (approach_objects empty_store)
  /\ neo_objects (mk_store [] [set_neo None eros_approach]) = neo_objects empty_store
  /\ length (approach_objects (mk_store [] [set_neo None eros_approach]))
     = S (length (approach_objects empty_store))
  /\ (forall e c, approach_objects empty_store !! e = Some c ->
        approach_objects (mk_store [] [set_neo None eros_approach]) !! e = Some c)
  /\ exists c,
       approach_objects (mk_store [] [set_neo None eros_approach]) !! 0%nat = Some c
       /\ _designation c = Py.str (PyStr "433") /\ neo c = None
       /\ helpers.cd_to_datetime (PyStr "1900-12-27 01:30") = inr (time c)
       /\ Py.float (PyStr "0.0092") = inr (distance c)
       /\ Py.float (PyStr "5.58") = inr (velocity c)
       /\ approach_extra_information c = [].
Proof.
  apply (X13_new_CloseApproach (PyStr "433") (PyStr "1900-12-27 01:30")
           (PyStr "0.0092") (PyStr "5.58") [] empty_store (inr 0%nat)).
  vm_compute. reflexivity.
Defined.

(** X14: the diameter is left to [float] whenever the input is truthy,
    of whatever type, and is the not-a-number for every falsy input: so
    the number zero, given as a number, is stored as unknown, while the
    string ['0'] is stored as zero.  When the constructor raises, the
    input was truthy and [float] raised on it. *)
Theorem X14_diameter_by_truth_value pdes nm v pha extra σ r σ' :
  NearEarthObject_init pdes nm (Some v) pha extra σ = (r, σ') ->
  match r with
  | inl err => Py.truthy v = true /\ Py.float v = inl err
  | inr a =>
      exists o, neo_objects σ' !! a = Some o
        /\ if Py.truthy v then Py.float v = inr (diameter o)
           else diameter o = S754_nan
  end.
Proof.
  rewrite NearEarthObject_init_run. unfold diameter_input.
  cbn [default from_option id].
  destruct (Py.truthy v) eqn:Hv.
  - destruct (Py.float v) as [err|d]; intros [= <- <-]; [done|].
    eexists. split; [apply lookup_new|]. done.
  - assert (Py.float (PyStr "nan") = inr S754_nan) as -> by (vm_compute; reflexivity).
    intros [= <- <-]. eexists. split; [apply lookup_new|]. done.
Qed.

Lemma X14_witness :
  (exists o,
     neo_objects
       (NearEarthObject_init (PyStr "a") None (Some (PyInt 0)) None [] empty_store).2
       !! 0%nat = Some o
     /\ diameter o = S754_nan)
  /\ (exists o,
        neo_objects
          (NearEarthObject_init (PyStr "a") None (Some (PyStr "0")) None []
             empty_store).2 !! 0%nat = Some o
        /\ Py.float (PyStr "0") = inr (diameter o)).
Proof.
  split.
  - apply (X14_diameter_by_truth_value (PyStr "a") None (PyInt 0) None []
             empty_store (inr 0%nat)).
    vm_compute. reflexivity.
  - apply (X14_diameter_by_truth_value (PyStr "a") None (PyStr "0") None []
             empty_store (inr 0%nat)).
    vm_compute. reflexivity.
Defined.

(** ** The loaders of [extract.py] *)

Lemma bind_inr_inv {A B} (m : M A) (f : A -> M B) σ y σ'' :
  (m ≫= f) σ = (inr y, σ'') ->
  exists x σ', m σ = (inr x, σ') /\ f x σ' = (inr y, σ'').
Proof.
  unfold mbind, M_bind. destruct (m σ) as [[e|x] σ'] eqn:E; [done|]. eauto.
Qed.

Lemma bind_inl {A B} (m : M A) (f : A -> M B) σ e σ' :
  m σ = (inl e, σ') -> (m ≫= f) σ = (inl e, σ').
Proof. intros H. unfold mbind, M_bind. by rewrite H. Qed.

Lemma for_list_cons_inv {A B} (f : A -> M B) x l σ ys σ'' :
  for_list f (x :: l) σ = (inr ys, σ'') ->
  exists y ys' σ',
    f x σ = (inr y, σ') /\ for_list f l σ' = (inr ys', σ'') /\ ys = y :: ys'.
Proof.
  cbn [for_list]. intros H.
  apply bind_inr_inv in H as (y & σ' & Hy & H).
  apply bind_inr_inv in H as (ys' & σ2 & Hys & H).
  injection H as <- <-. eauto 10.
Qed.

(** A record that fails after records that succeed makes the whole
    comprehension fail with its error. *)
Lemma for_list_abort {A B} (f : A -> M B) l1 x l2 σ ys σ1 err σ2 :
  for_list f l1 σ = (inr ys, σ1) -> f x σ1 = (inl err, σ2) ->
  for_list f (l1 ++ x :: l2) σ = (inl err, σ2).
Proof.
  revert σ ys. induction l1 as [|x1 l1 IH]; intros σ ys Hl Hx.
  - injection Hl as <- <-. cbn [app for_list]. by apply bind_inl.
  - apply for_list_cons_inv in Hl as (y & ys' & σ' & Hy & Hl & ->).
    cbn [app for_list]. rewrite (bind_inr _ _ _ _ _ Hy).
    apply bind_inl. by eapply IH.
Qed.

Lemma NearEarthObject_call_inv row σ a σ' :
  NearEarthObject_call row σ = (inr a, σ') ->
  exists pdes d,
    dict_get "pdes" row = Some pdes
    /\ a = length (neo_objects σ)
    /\ approach_objects σ' = approach_objects σ
    /\ neo_objects σ' =
         neo_objects σ ++
           [mk_neo (Py.str pdes)
              (name_of_input (default (PyStr "") (dict_get "name" row))) d
              (hazardous_of_input (default (PyStr "N") (dict_get "pha" row))) []
              (dict_without ["pdes"; "name"; "diameter"; "pha"] row)].
Proof.
  unfold NearEarthObject_call. destruct (dict_get "pdes" row) as [pdes|]; [|done].
  intros H. apply NearEarthObject_init_inv in H as (d & _ & H). eauto.
Qed.

Lemma load_neos_keeps rows σ l σ' b o :
  for_list NearEarthObject_call rows σ = (inr l, σ') ->
  neo_objects σ !! b = Some o -> neo_objects σ' !! b = Some o.
Proof.
  revert σ l. induction rows as [|row rows IH]; intros σ l H Ho.
  { by injection H as <- <-. }
  apply for_list_cons_inv in H as (a & l' & σ1 & Ha & Hl & ->).
  apply NearEarthObject_call_inv in Ha as (pdes & d & _ & _ & _ & Hneo).
  eapply IH; [exact Hl|]. rewrite Hneo. by apply lookup_app_l_Some.
Qed.

(** X15: when [load_neos] returns, it has constructed one object for
    each row, in the order of the rows and at consecutive fresh
    addresses, whether or not designations repeat; each has the
    designation of its row, no approaches, and the fields of the row
    other than [pdes], [name], [diameter] and [pha] as its
    [extra_information].  No close approach is touched. *)
Theorem X15_load_neos rows σ l σ' :
  load_neos rows σ = (inr l, σ') ->
  l = seq (length (neo_objects σ)) (length rows)
  /\ approach_objects σ' = approach_objects σ
  /\ forall i row, rows !! i = Some row ->
       exists pdes o,
         dict_get "pdes" row = Some pdes
         /\ neo_objects σ' !! (length (neo_objects σ) + i)%nat = Some o
         /\ designation o = Py.str pdes
         /\ approaches o = []
         /\ extra_information o
            = dict_without ["pdes"; "name"; "diameter"; "pha"] row.
Proof.
  unfold load_neos. revert σ l.
  induction rows as [|row rows IH]; intros σ l H.
  { injection H as <- <-. split_and!; [done|done|]. intros i row Hi.
    by rewrite lookup_nil in Hi. }
  apply for_list_cons_inv in H as (a & l' & σ1 & Ha & Hl & ->).
  apply NearEarthObject_call_inv in Ha as (pdes & d & Hp & -> & Happ & Hneo).
  destruct (IH _ _ Hl) as (-> & Happ' & Hrows).
  assert (length (neo_objects σ1) = S (length (neo_objects σ))) as Hlen
    by (rewrite Hneo, length_app; cbn; lia).
  split_and!.
  - cbn [length seq]. by rewrite Hlen.
  - congruence.
  - intros [|i] r Hi.
    + injection Hi as <-. exists pdes. eexists. split; [done|].
      rewrite Nat.add_0_r. split.
      { eapply load_neos_keeps; [exact Hl|]. rewrite Hneo. apply lookup_new. }
      done.
    + destruct (Hrows i r Hi) as (p & o & ? & Ho & ?).
      exists p, o. split; [done|]. split; [|done].
      rewrite Hlen in Ho. by rewrite <- Nat.add_succ_comm.
Qed.

Lemma X15_witness :
  [0; 1]%nat = seq (length (neo_objects empty_store)) (length catalogue_rows)
  /\ approach_objects (load_neos catalogue_rows empty_store).2
     = approach_objects empty_store
  /\ forall i row, catalogue_rows !! i = Some row ->
       exists pdes o,
         dict_get "pdes" row = Some pdes
         /\ neo_objects (load_neos catalogue_rows empty_store).2
              !! (length (neo_objects empty_store) + i)%nat = Some o
         /\ designation o = Py.str pdes
         /\ approaches o = []
         /\ extra_information o
            = dict_without ["pdes"; "name"; "diameter"; "pha"] row.
Proof.
  apply (X15_load_neos catalogue_rows empty_store [0; 1]%nat).
  vm_compute. reflexivity.
Defined.

(** X16: [load_neos] stops at the first row it cannot construct: the
    error of that row is the error of the load, no list is returned,
    and the rows after it are not looked at.  A row that lacks [pdes]
    is such a row. *)
Theorem X16_load_neos_aborts rows1 row rows2 σ l σ1 err σ2 :
  load_neos rows1 σ = (inr l, σ1) ->
  NearEarthObject_call row σ1 = (inl err, σ2) ->
  load_neos (rows1 ++ row :: rows2) σ = (inl err, σ2).
Proof. apply for_list_abort. Qed.

Lemma X16_witness :
  load_neos (catalogue_rows ++ [("name", PyStr "Nameless")] :: catalogue_rows)
    empty_store
  = (inl (TypeError
            "NearEarthObject.__init__() missing 1 required positional argument: 'pdes'"),
     (load_neos catalogue_rows empty_store).2).
Proof.
  apply (X16_load_neos_aborts catalogue_rows [("name", PyStr "Nameless")]
           catalogue_rows empty_store [0; 1]%nat
           (load_neos catalogue_rows empty_store).2).
  - vm_compute. reflexivity.
  - vm_compute. reflexivity.
Defined.

Lemma dict_get_cons k k0 v0 d :
  dict_get k ((k0, v0) :: d) = if String.eqb k0 k then Some v0 else dict_get k d.
Proof. unfold dict_get. cbn. by destruct (String.eqb k0 k). Qed.

Lemma dict_get_app k d1 d2 :
  dict_get k (d1 ++ d2)
  = match dict_get k d1 with Some v => Some v | None => dict_get k d2 end.
Proof.
  induction d1 as [|[k0 v0] d1 IH]; [done|].
  cbn [app]. rewrite !dict_get_cons. by destruct (String.eqb k0 k).
Qed.

Lemma dict_get_dict_set k k' v d :
  dict_get k (dict_set k' v d) = if String.eqb k' k then Some v else dict_get k d.
Proof.
  induction d as [|[k0 v0] d IH]; cbn [dict_set].
  { by rewrite dict_get_cons. }
  destruct (String.eqb_spec k0 k') as [->|Hne]; rewrite !dict_get_cons.
  - by destruct (String.eqb k' k).
  - rewrite IH. destruct (String.eqb_spec k0 k) as [->|?]; [|done].
    by destruct (String.eqb_spec k' k) as [->|?].
Qed.

Lemma dict_get_fold k pairs acc :
  dict_get k (fold_left (fun d kv => dict_set kv.1 kv.2 d) pairs acc)
  = match dict_get k (rev pairs) with Some v => Some v | None => dict_get k acc end.
Proof.
  revert acc. induction pairs as [|[k0 v0] pairs IH]; intros acc; [done|].
  cbn [fold_left rev]. rewrite IH, dict_get_app, dict_get_dict_set.
  cbn [fst snd]. rewrite dict_get_cons.
  destruct (dict_get k (rev pairs)); [done|]. by destruct (String.eqb k0 k).
Qed.



(** X17: when a field name stands twice among the [fields] of the JSON
    file, [load_approaches] passes on the value of the later column:
    the keyword arguments hold, under each name, the last value of the
    row that stands under that name. *)
Theorem X17_later_column_wins k (fields : list string) (row : list pyval) :
  dict_get k (dict (zip fields row)) = dict_get k (rev (zip fields row)).
Proof.
  unfold dict. rewrite dict_get_fold. by destruct (dict_get k (rev _)).
Qed.

Lemma CloseApproach_init_inv des cd dist v_rel extra σ a σ' :
  CloseApproach_init des cd dist v_rel extra σ = (inr a, σ') ->
  exists c,
    a = length (approach_objects σ)
    /\ neo_objects σ' = neo_objects σ
    /\ approach_objects σ' = approach_objects σ ++ [c]
    /\ neo c = None.
Proof.
  unfold CloseApproach_init, mbind, M_bind, lift, new_approach.
  destruct (helpers.cd_to_datetime cd) as [e1|t]; [done|].
  destruct (Py.float dist) as [e2|d]; [done|].
  destruct (Py.float v_rel) as [e3|v]; [done|].
  intros [= <- <-]. eexists. by split_and!.
Qed.

Lemma CloseApproach_call_inv kwargs σ a σ' :
  CloseApproach_call kwargs σ = (inr a, σ') ->
  exists c,
    a = length (approach_objects σ)
    /\ neo_objects σ' = neo_objects σ
    /\ approach_objects σ' = approach_objects σ ++ [c]
    /\ neo c = None.
Proof.
  unfold CloseApproach_call.
  destruct (dict_get "des" kwargs), (dict_get "cd" kwargs),
    (dict_get "dist" kwargs), (dict_get "v_rel" kwargs); try done.
  apply CloseApproach_init_inv.
Qed.




(** X19: when [load_approaches] returns, it has constructed one event
    for each row of [data], in order and at consecutive fresh
    addresses; every one of them refers to no object yet, and neither
    the objects nor the events that were there have changed. *)
Theorem X19_load_approaches fields data σ l σ' :
  load_approaches fields data σ = (inr l, σ') ->
  l = seq (length (approach_objects σ)) (length data)
  /\ neo_objects σ' = neo_objects σ
  /\ (forall e c, approach_objects σ !! e = Some c ->
        approach_objects σ' !! e = Some c)
  /\ (forall e, e ∈ l ->
        exists c, approach_objects σ' !! e = Some c /\ neo c = None).
Proof.
  unfold load_approaches. revert σ l.
  induction data as [|row data IH]; intros σ l H.
  { injection H as <- <-. split_and!; [done..|].
    intros e He. by apply elem_of_nil in He. }
  apply for_list_cons_inv in H as (a & l' & σ1 & Ha & Hl & ->).
  apply CloseApproach_call_inv in Ha as (c & -> & Hneo & Happ & Hnone).
  destruct (IH _ _ Hl) as (-> & Hneo' & Hkeep & Hnew).
  assert (length (approach_objects σ1) = S (length (approach_objects σ))) as Hlen
    by (rewrite Happ, length_app; cbn; lia).
  split_and!.
  - cbn [length seq]. by rewrite Hlen.
  - congruence.
  - intros e c' Hc'. apply Hkeep. rewrite Happ. by apply lookup_app_l_Some.
  - intros e He. apply elem_of_cons in He as [->|He]; [|by apply Hnew].
    exists c. split; [|done]. apply Hkeep. rewrite Happ. apply lookup_new.
Qed.

Lemma X19_witness :
  [0; 1]%nat = seq (length (approach_objects empty_store)) (length [full_row; full_row])
  /\ neo_objects (load_approaches approach_fields [full_row; full_row] empty_store).2
     = neo_objects empty_store
  /\ (forall e c, approach_objects empty_store !! e = Some c ->
        approach_objects
          (load_approaches approach_fields [full_row; full_row] empty_store).2 !! e
        = Some c)
  /\ (forall e, e ∈ [0; 1]%nat ->
        exists c,
          approach_objects
            (load_approaches approach_fields [full_row; full_row] empty_store).2 !! e
          = Some c /\ neo c = None).
Proof.
  apply (X19_load_approaches approach_fields [full_row; full_row] empty_store
           [0; 1]%nat).
  vm_compute. reflexivity.
Defined.

(** ** Linking, then serializing *)

(** X20: once [assign_neo] has found a body for an event, with a map
    keyed by designation, [serialize] returns for both shapes, and the
    designation it reports, which it reads from the body, is the
    designation the event was constructed with. *)
Theorem X20_serialized_designation σ e c neos b :
  approach_objects σ !! e = Some c -> keyed σ neos ->
  neos !! _designation c = Some b ->
  exists σ' flat top nested,
    assign_neo e neos σ = (inr e, σ')
    /\ serialize e (PyStr "csv") σ' = (inr (PyDict flat), σ')
    /\ dict_get "designation" flat = Some (PyStr (_designation c))
    /\ serialize e (PyStr "json") σ' = (inr (PyDict top), σ')
    /\ dict_get "neo" top = Some (PyDict nested)
    /\ dict_get "designation" nested = Some (PyStr (_designation c)).
Proof.
  intros Hc Hkey Hn.
  destruct (assign_neo_run σ e c neos Hc Hkey) as (σ' & Hrun & Happ & Hneo & _).
  destruct (Hkey _ _ Hn) as (o & Ho & Hd).
  pose proof (Happ _ _ Hc) as Hc'. rewrite bool_decide_eq_true_2, Hn in Hc' by done.
  pose proof (Hneo _ _ Ho) as Ho'. rewrite bool_decide_eq_true_2 in Ho' by done.
  assert (linked σ' e (set_neo (Some b) c)
            (set_approaches (approaches o ++ [e]) o)) as Hlinked.
  { split; [done|]. exists b. by split. }
  exists σ'. do 3 eexists. split; [done|].
  rewrite !(serialize_run _ _ _ _ _ Hlinked). unfold serialized.
  cbn [Py.eq_str String.eqb Ascii.eqb Bool.eqb].
  split_and!; try reflexivity; cbn; by rewrite Hd.
Qed.

Lemma X20_witness :
  exists σ' flat top nested,
    assign_neo 2%nat {[ "433" := 0%nat; "2015 AB" := 1%nat ]} unlinked_store
      = (inr 2%nat, σ')
    /\ serialize 2%nat (PyStr "csv") σ' = (inr (PyDict flat), σ')
    /\ dict_get "designation" flat = Some (PyStr "433")
    /\ serialize 2%nat (PyStr "json") σ' = (inr (PyDict top), σ')
    /\ dict_get "neo" top = Some (PyDict nested)
    /\ dict_get "designation" nested = Some (PyStr "433").
Proof.
  apply (X20_serialized_designation unlinked_store 2%nat
           (mk_approach "433" (helpers.mk_datetime 1931 1 30 4 7 0)
              (Float.of_decimal false 174 (-3)) (Float.of_decimal false 59 (-1))
              None [])
           {[ "433" := 0%nat; "2015 AB" := 1%nat ]} 0%nat).
  - reflexivity.
  - exact unlinked_store_keyed.
  - vm_compute. reflexivity.
Defined.
